(** * Dashboard-CDMX: the data pipeline of [app.py]

    A shallow embedding of the tabular pipeline that [app.py] runs at
    start-up (column resolution, normalisation, per-location sentiment
    aggregation, focus selection, topic summary, word-cloud input), and the
    properties of it that the design document states.

    Conventions.
    - A Python [str] is a list of Unicode code points ([pystr]); literals are
      written as Rocq strings and decoded from UTF-8 by [py].
    - A cell of a pandas column is [None] (NaN / NA) or [Some s] where [s] is
      what [str] gives for the value; a column ([Series]) also records whether
      its dtype is text-like ([object] or a string dtype).
    - A [DataFrame] is the ordered list of its named columns together with
      its row count. Column names may repeat (renaming can make them clash);
      [getitem] then does not yield a [Series] and the script's Series-only
      calls raise, which the model records as [NotASeries].
    - The script's exceptions are the [error] values of the [result] monad.
    - The resolver's scores are IEEE 754 doubles ([spec_float] at 53 bits),
      computed operation by operation as Python and numpy do.
    - [pos_ratio] is the exact quotient; the script holds its rounding to a
      double. *)

From Stdlib Require Import QArith Lqa String Ascii Floats.SpecFloat.
From stdpp Require Import base list gmap sorting.

Local Open Scope nat_scope.
Local Open Scope list_scope.

(** ** Python strings *)

Module PyStr.

Abbreviation pystr := (list N).

(** Decoding of the UTF-8 bytes of a source literal into code points. *)
Fixpoint utf8_decode (bs : list N) : pystr :=
  match bs with
  | [] => []
  | b :: r =>
    if (b <? 128)%N then b :: utf8_decode r
    else if (b <? 224)%N then
      match r with
      | c1 :: r1 => ((b mod 32) * 64 + c1 mod 64)%N :: utf8_decode r1
      | _ => []
      end
    else if (b <? 240)%N then
      match r with
      | c1 :: c2 :: r2 =>
        ((b mod 16) * 4096 + (c1 mod 64) * 64 + c2 mod 64)%N :: utf8_decode r2
      | _ => []
      end
    else
      match r with
      | c1 :: c2 :: c3 :: r3 =>
        ((b mod 8) * 262144 + (c1 mod 64) * 4096 + (c2 mod 64) * 64
         + c3 mod 64)%N :: utf8_decode r3
      | _ => []
      end
  end.

Definition py (s : string) : pystr :=
  utf8_decode (fmap N_of_ascii (list_ascii_of_string s)).

(** [str.isspace] on one code point. *)
Definition isspace (c : N) : bool :=
  ((9 <=? c) && (c <=? 13) || (28 <=? c) && (c <=? 32)
   || (c =? 133) || (c =? 160) || (c =? 5760)
   || (8192 <=? c) && (c <=? 8202)
   || (c =? 8232) || (c =? 8233) || (c =? 8239) || (c =? 8287)
   || (c =? 12288))%N.

Fixpoint lstrip (s : pystr) : pystr :=
  match s with
  | c :: r => if isspace c then lstrip r else s
  | [] => []
  end.

Definition rstrip (s : pystr) : pystr := reverse (lstrip (reverse s)).

(** [s.strip()] *)
Definition strip (s : pystr) : pystr := rstrip (lstrip s).

(** [re.sub("^" + p, "", s)] for a literal [p]: the pattern is anchored at
    the start of the string, so at most one occurrence is removed. *)
Fixpoint strip_prefix (p s : pystr) : option pystr :=
  match p, s with
  | [], _ => Some s
  | a :: p', b :: s' => if (a =? b)%N then strip_prefix p' s' else None
  | _ :: _, [] => None
  end.

Definition sub_prefix (p s : pystr) : pystr := default s (strip_prefix p s).

(** [s.replace(a, b)] for one-character [a] and [b]. *)
Definition replace_char (a b : N) (s : pystr) : pystr :=
  fmap (fun c => if (c =? a)%N then b else c) s.

(** [s.lower()] restricted to the ASCII letters. The resolver only tests
    the result for membership in a tuple of ASCII names without the letter
    k, and no other code point lowers into that alphabet, so the test agrees
    with Python's full-Unicode [lower]. *)
Definition lower_char (c : N) : N :=
  if ((65 <=? c) && (c <=? 90))%N then (c + 32)%N else c.

Definition lower (s : pystr) : pystr := fmap lower_char s.

(** Python's [<=] on [str]: lexicographic on code points. *)
Fixpoint leb (s t : pystr) : bool :=
  match s, t with
  | [], _ => true
  | _ :: _, [] => false
  | a :: s', b :: t' =>
    if (a <? b)%N then true else if (b <? a)%N then false else leb s' t'
  end.

(** Truthiness of a [str]. *)
Definition nonempty (s : pystr) : bool :=
  match s with [] => false | _ => true end.

(** [sep.join(l)] *)
Fixpoint join (sep : pystr) (l : list pystr) : pystr :=
  match l with
  | [] => []
  | [s] => s
  | s :: r => s ++ sep ++ join sep r
  end.

End PyStr.

Import PyStr.

(** ** Exceptions *)

Inductive error :=
| ValueError                 (* the script's own [raise ValueError(...)] *)
| KeyError (k : pystr)       (* [df[k]] on an absent column *)
| NotASeries (k : pystr).    (* [df[k]] gave a frame: a Series-only call raised *)

Inductive result (A : Type) :=
| Ok (a : A)
| Err (e : error).
Arguments Ok {A} a.
Arguments Err {A} e.

Definition rbind {A B} (r : result A) (k : A -> result B) : result B :=
  match r with
  | Ok a => k a
  | Err e => Err e
  end.

Notation "x <- r ;; k" := (rbind r (fun x => k))
  (at level 100, r at next level, right associativity).

(** ** Series and frames *)

Abbreviation cell := (option pystr).

Record Series := mkSeries { text_like : bool; values : list cell }.

Record DataFrame := mkFrame { columns : list (pystr * Series); nrows : nat }.

Definition names (df : DataFrame) : list pystr := (columns df).*1.

(** [k in df.columns] *)
Definition has_col (k : pystr) (df : DataFrame) : bool :=
  bool_decide (k ∈ names df).

(** [df[k]], expected to be a [Series]. *)
Definition getitem (df : DataFrame) (k : pystr) : result Series :=
  match filter (fun c => c.1 = k) (columns df) with
  | [] => Err (KeyError k)
  | [c] => Ok c.2
  | _ => Err (NotASeries k)
  end.

(** [df[k] = s]: overwrite the column(s) named [k], or append a new one. *)
Definition setitem (df : DataFrame) (k : pystr) (s : Series) : DataFrame :=
  if has_col k df
  then mkFrame (fmap (fun c => if decide (c.1 = k) then (k, s) else c)
                    (columns df)) (nrows df)
  else mkFrame (columns df ++ [(k, s)]) (nrows df).

(** Selection by a boolean mask. *)
Fixpoint mask_select {A} (m : list bool) (l : list A) : list A :=
  match m, l with
  | b :: m', x :: l' => if b then x :: mask_select m' l' else mask_select m' l'
  | _, _ => []
  end.

(** [s[mask]] *)
Definition select (m : list bool) (s : Series) : Series :=
  mkSeries (text_like s) (mask_select m (values s)).

(** [df[mask]] *)
Definition filter_rows (m : list bool) (df : DataFrame) : DataFrame :=
  mkFrame (fmap (fun c => (c.1, select m c.2)) (columns df))
          (length (mask_select m (replicate (nrows df) ()))).

(** [s.astype(str)]: NaN becomes the string "nan". *)
Definition str_of_cell (c : cell) : pystr := default (py "nan") c.

Definition astype_str (s : Series) : Series :=
  mkSeries true (fmap (fun c => Some (str_of_cell c)) (values s)).

(** [s.str.f(...)]: applies [f] to the strings, leaves NaN. *)
Definition str_map (f : pystr -> pystr) (s : Series) : Series :=
  mkSeries true (fmap (fun c : cell => f <$> c) (values s)).

(** [s.dropna()] (values only). *)
Definition dropna (l : list cell) : list pystr := omap id l.

(** ** Configuration *)

Definition N : nat := 12.
Definition MIN_TOPIC_MENTIONS : nat := 40.

(** The topic-description dictionary. *)
Definition topic_entries : list (pystr * pystr) :=
  [
    (py "0", py "El arte, la historia y la cultura mexicana: museos y murales (Diego Rivera).");
    (py "1", py "Comprar boletos en línea para atracciones (Torre Latinoamericana, Anahuacalli...).");
    (py "2", py "Mercados vibrantes con artesanías a precios accesibles.");
    (py "3", py "Palacio de Bellas Artes: acústica, conciertos y Ballet Folklórico.");
    (py "4", py "CDMX como destino obligatorio: Antropología, Castillo de Chapultepec, MUNAL.");
    (py "5", py "Acuario Inbursa: experiencia interactiva, pingüinos y tiburones.");
    (py "6", py "Hoteles históricos: servicio, comida y vistas (base para explorar).");
    (py "7", py "Basílica de Guadalupe: peregrinación, arquitectura e historia.");
    (py "8", py "Cineteca Nacional: cine de arte asequible, proyecciones de calidad.");
    (py "9", py "Murales de Diego Rivera en el Palacio Nacional: gratuitos y emblemáticos.");
    (py "10", py "Papalote Museo del Niño: interactivo para niños y adultos.");
    (py "11", py "Castillo de Chapultepec: edificio histórico con vistas impresionantes.");
    (py "12", py "Ciudad Universitaria (UNAM): patrimonio, murales y cultura.");
    (py "13", py "Zoológico de Chapultepec: entrada gratuita, variedad de animales.");
    (py "14", py "Bosque de Chapultepec: parque grande ideal para picnic y paseos.");
    (py "15", py "Mercados de artesanías: comparar precios y caminar para encontrar tesoros.");
    (py "16", py "Torre Latinoamericana: vistas panorámicas imperdibles.");
    (py "17", py "Museo Memoria y Tolerancia: exposición fuerte para concientizar.");
    (py "18", py "Bazar del Sábado en San Ángel: artesanías y ambiente bohemio.");
    (py "19", py "Palacio de Correos: edificio histórico con interior marmóreo.");
    (py "20", py "Comida en museos: buffets y desayunos recomendados.");
    (py "21", py "Paseo Dominical por Reforma: cierre vial para peatones y ciclistas.");
    (py "22", py "Museos tipo Papalote: actividades interactivas familiares.");
    (py "23", py "Six Flags México: parque de diversiones con pase rápido disponible.");
    (py "24", py "Críticas al servicio en Six Flags: personal y plataformas de pago.");
    (py "25", py "Museo de Cera: figuras para fotos y entretenimiento.");
    (py "26", py "Lucha libre en Arena México: show familiar y ambiente animado.");
    (py "27", py "Problemas de organización y comida en Six Flags.");
    (py "28", py "Tarjeta del Metrobús: forma económica de moverse por la ciudad.");
    (py "29", py "Coyoacán: barrio encantador, churros y ambiente seguro.");
    (py "30", py "Atracciones de Six Flags con largas filas en temporada alta.");
    (py "31", py "Six Flags: variedad de juegos y montañas rusas familiares.");
    (py "32", py "Críticas a la comida de los buffets (mala y cara).");
    (py "33", py "Festival del Terror: aglomeraciones y largas filas.");
    (py "34", py "Zócalo: plaza principal con eventos y edificios históricos.");
    (py "35", py "Templo Mayor: vestigio azteca fascinante en el centro.");
    (py "36", py "Museo Memoria y Tolerancia: reflexión sobre atrocidades humanas.");
    (py "37", py "Mercados de artesanías: paciencia y habilidad para negociar.");
    (py "38", py "World Press Photo: exhibición temporal fotoperiodística.");
    (py "39", py "Polanco: zona exclusiva con restaurantes, pero tráfico pesado.");
    (py "40", py "Mural histórico de Diego Rivera salvado tras 1985: traducción cultural.");
    (py "41", py "Problemas de limpieza y control animal en parques y colonias.")
  ].

Definition topic_descriptions : gmap pystr pystr := list_to_map topic_entries.

(** [d.get(k, dflt)] *)
Definition dict_get (d : gmap pystr pystr) (k dflt : pystr) : pystr :=
  default dflt (d !! k).

(** ** Utilities *)

(** [short_label]: the function ends after the [if], so it returns Python's
    [None] when the description is empty. Its [max_len] parameter is not
    used. *)
Definition short_label (topic_id : pystr) : option pystr :=
  let desc := dict_get topic_descriptions topic_id [] in
  if nonempty desc then Some (py "Tópico " ++ topic_id) else None.

Definition review_names : list pystr :=
  [py "review"; py "review_text"; py "review_lematizada";
   py "review_lemmatized"; py "texto"; py "comentario"].

(** Python floats: IEEE 754 binary64, round to nearest even. *)

(** [float(n)] of a non-negative integer. *)
Definition float_of_nat (n : nat) : spec_float :=
  binary_normalize 53 1024 (Z.of_nat n) 0 false.

Definition fdiv (x y : spec_float) : spec_float := SFdiv 53 1024 x y.
Definition fmul (x y : spec_float) : spec_float := SFmul 53 1024 x y.
Definition fzero : spec_float := S754_zero false.

(** [x > y] *)
Definition fgt (x y : spec_float) : bool := SFltb y x.

(** [x <= y] *)
Definition fle (x y : spec_float) : bool := SFleb x y.

(** [sample.map(len).mean()] of a non-empty sample, [0] of an empty one.
    pandas adds the lengths in double precision, which is their exact sum
    below 2^53, and divides by the count. *)
Definition avg_len (sample : list pystr) : spec_float :=
  match sample with
  | [] => fzero
  | _ => fdiv (float_of_nat (sum_list (fmap length sample)))
              (float_of_nat (length sample))
  end.

(** [avg_len * (len(sample) / max(1, len(df)))]: the quotient of the two
    integers is rounded first, then the product. *)
Definition score (df : DataFrame) (s : Series) : spec_float :=
  let sample := take 200 (dropna (values s)) in
  fmul (avg_len sample)
       (fdiv (float_of_nat (length sample))
             (float_of_nat (Nat.max 1 (nrows df)))).

(** [[c for c in df.columns if df[c].dtype == "object" or ...]]: every
    column is fetched, in order. *)
Fixpoint text_cols (df : DataFrame) (cs : list pystr)
  : result (list (pystr * Series)) :=
  match cs with
  | [] => Ok []
  | c :: r =>
    s <- getitem df c ;;
    rest <- text_cols df r ;;
    Ok (if text_like s then (c, s) :: rest else rest)
  end.

(** One turn of the [for c in text_cols] loop on [(best, best_score)]. *)
Definition best_step (df : DataFrame) (st : option pystr * spec_float)
    (c : pystr * Series) : option pystr * spec_float :=
  let sc := score df c.2 in
  if fgt sc st.2 then (Some c.1, sc) else st.

Definition detect_review_column (df : DataFrame) : result (option pystr) :=
  match filter (fun c => lower c ∈ review_names) (names df) with
  | c :: _ => Ok (Some c)
  | [] =>
    tcs <- text_cols df (names df) ;;
    Ok (fold_left (best_step df) tcs (None, fzero)).1
  end.

(** ** Loading and preparing the data *)

Definition rename_map : gmap pystr pystr :=
  list_to_map
    [(py "Lugar", py "lugar"); (py "SentLabel", py "sent_label");
     (py "SentScore", py "sent_score"); (py "Topic", py "topic");
     (py "Review", py "review_text"); (py "review", py "review_text")].

(** [df.rename(columns=m)] *)
Definition rename_columns (m : gmap pystr pystr) (df : DataFrame) : DataFrame :=
  mkFrame (fmap (fun c => (default c.1 (m !! c.1), c.2)) (columns df)) (nrows df).

(** [{k: v for k, v in rename_map.items() if k in df.columns}] *)
Definition present_renames (df : DataFrame) : gmap pystr pystr :=
  filter (fun kv => kv.1 ∈ names df) rename_map.

Definition rename (df : DataFrame) : DataFrame :=
  rename_columns (present_renames df) df.

Definition clean_lugar (s : Series) : Series :=
  str_map strip
    (str_map (replace_char 95 32)
       (str_map (sub_prefix (py "reseñas_")) (astype_str s))).

Definition sentinels : list pystr :=
  [py "-1"; py "-1.0"; []; py "None"; py "nan"].

Definition is_sentinel (c : cell) : bool :=
  match c with
  | Some t => bool_decide (t ∈ sentinels)
  | None => false
  end.

(** Lines 118-138: renaming, validation, location cleaning, topic filter. *)
Definition normalizer (df0 : DataFrame) : result DataFrame :=
  let df := rename df0 in
  if negb (has_col (py "lugar") df) || negb (has_col (py "sent_label") df)
  then Err ValueError
  else
    lugar <- getitem df (py "lugar") ;;
    let df := setitem df (py "lugar") (clean_lugar lugar) in
    if has_col (py "topic") df then
      topic <- getitem df (py "topic") ;;
      let topic := str_map strip (astype_str topic) in
      let df := setitem df (py "topic") topic in
      Ok (filter_rows (fmap (fun t => negb (is_sentinel t)) (values topic)) df)
    else
      Ok (setitem df (py "topic") (mkSeries true (replicate (nrows df) None))).

(** Lines 141-145: [df["review_text"] = df.get("review_text", ...)]. *)
Definition add_review_text (df : DataFrame) : result DataFrame :=
  review_col <- detect_review_column df ;;
  if has_col (py "review_text") df then Ok df
  else
    match review_col with
    | Some c =>
      if nonempty c
      then s <- getitem df c ;; Ok (setitem df (py "review_text") s)
      else Ok (setitem df (py "review_text")
                 (mkSeries true (replicate (nrows df) (Some []))))
    | None =>
      Ok (setitem df (py "review_text")
            (mkSeries true (replicate (nrows df) (Some []))))
    end.


(** ** Sorting

    pandas sorts on several keys with a stable sort; an insertion sort that
    places an element before the first one it may precede is stable. The
    one-key sort of the remainder uses numpy's default, whose order among
    equal keys is not fixed; the results below that concern the focus only
    use that sorting permutes the rows. *)

Section Sort.
Context {A : Type} (le : A -> A -> bool).

Fixpoint insert_sorted (x : A) (l : list A) : list A :=
  match l with
  | [] => [x]
  | y :: r => if le x y then x :: l else y :: insert_sorted x r
  end.

Definition stable_sort (l : list A) : list A := foldr insert_sorted [] l.

End Sort.

(** ** Aggregation by location (lines 150-160) *)

Record Agg := mkAgg {
  lugar : pystr;
  mentions : nat;
  pos : nat;
  neg : nat;
  neu : nat;
  pos_ratio : option Q      (* [None] is NaN, from 0/0 *)
}.

(** [(x.astype(str) == lab).sum()] *)
Definition count_label (lab : pystr) (g : list cell) : nat :=
  length (filter (fun c => str_of_cell c = lab) g).

(** ["count"]: the number of non-missing values. *)
Definition count_notna (g : list cell) : nat := length (dropna g).

(** The keys of a [groupby]: the distinct non-missing values, sorted. *)
Definition group_keys (l : list cell) : list pystr :=
  stable_sort leb (remove_dups (dropna l)).

(** The [sent_label] values of the rows of one location. *)
Definition group_labels (rows : list (cell * cell)) (k : pystr) : list cell :=
  (filter (fun r => r.1 = Some k) rows).*2.

(** [pos / mentions]; [pos <= mentions], so a zero divisor means 0/0. *)
Definition ratio (p m : nat) : option Q :=
  match m with
  | O => None
  | _ => Some (Z.of_nat p # Pos.of_nat m)
  end.

Definition aggregate_group (rows : list (cell * cell)) (k : pystr) : Agg :=
  let g := group_labels rows k in
  let p := count_label (py "POS") g in
  mkAgg k (count_notna g) p (count_label (py "NEG") g)
        (count_label (py "NEU") g) (ratio p (count_notna g)).

Definition aggregate (rows : list (cell * cell)) : list Agg :=
  fmap (aggregate_group rows) (group_keys rows.*1).

(** The (lugar, sent_label) pairs of the rows of [df]. *)
Definition sentiment_rows (df : DataFrame) : result (list (cell * cell)) :=
  l <- getitem df (py "lugar") ;;
  s <- getitem df (py "sent_label") ;;
  Ok (zip (values l) (values s)).

Definition aggregator (df : DataFrame) : result (list Agg) :=
  rows <- sentiment_rows df ;;
  Ok (aggregate rows).

(** ** Selection of the focus (lines 161-167) *)

(** [a] may precede [b] by (pos_ratio, mentions), both descending, NaN last. *)
Definition desc_le (a b : Agg) : bool :=
  match pos_ratio a, pos_ratio b with
  | Some x, Some y =>
    if Qeq_bool x y then mentions b <=? mentions a else Qle_bool y x
  | Some _, None => true
  | None, Some _ => false
  | None, None => mentions b <=? mentions a
  end.

(** [a] may precede [b] by pos_ratio ascending, NaN last. *)
Definition asc_le (a b : Agg) : bool :=
  match pos_ratio a, pos_ratio b with
  | Some x, Some y => Qle_bool x y
  | Some _, None => true
  | None, Some _ => false
  | None, None => true
  end.

Definition sort_agg (agg : list Agg) : list Agg := stable_sort desc_le agg.

(** [agg.head(n)] of the sorted aggregates. *)
Definition top (n : nat) (agg : list Agg) : list Agg := take n agg.

(** [agg[~agg["lugar"].isin(top["lugar"])]] *)
Definition resto (n : nat) (agg : list Agg) : list Agg :=
  filter (fun a => lugar a ∉ fmap lugar (top n agg)) agg.

(** [resto.sort_values("pos_ratio").head(n)] *)
Definition bottom (n : nat) (agg : list Agg) : list Agg :=
  take n (stable_sort asc_le (resto n agg)).

Definition focus (n : nat) (agg : list Agg) : list Agg :=
  top n agg ++ bottom n agg.

(** ** Topic summary (lines 172-185) *)

Record TopicRow := mkTopicRow {
  topic_id : pystr;
  label : option pystr;     (* [None] is Python's [None] *)
  description : pystr;
  topic_mentions : nat
}.

Definition map_topic_row (topic : pystr) (m : nat) : TopicRow :=
  let tid := strip topic in
  let desc := dict_get topic_descriptions tid
                (dict_get topic_descriptions (py "neg_" ++ tid) []) in
  mkTopicRow tid (short_label tid) desc m.

(** [s.notna().any()] *)
Definition any_notna (l : list cell) : bool :=
  bool_decide (Exists is_Some l).

(** [tmp.groupby("topic").size()] on the (lugar, topic) pairs of [tmp]. *)
Definition topic_sizes (tmp : list (cell * cell)) : list (pystr * nat) :=
  fmap (fun t => (t, length (filter (fun r => r.2 = Some t) tmp)))
      (group_keys tmp.*2).

Definition topic_summarizer (df : DataFrame) (foc : list Agg)
  : result (list TopicRow) :=
  topic <- getitem df (py "topic") ;;
  if any_notna (values topic) then
    l <- getitem df (py "lugar") ;;
    let tmp := filter (fun r => r.1 ∈ fmap (fun a => Some (lugar a)) foc)
                      (zip (values l) (values topic)) in
    let treemap := filter (fun tc => MIN_TOPIC_MENTIONS <= tc.2)
                          (topic_sizes tmp) in
    Ok (fmap (fun tc => map_topic_row tc.1 tc.2) treemap)
  else Ok [].

(** ** Word cloud (lines 190-201)

    The model stops at the text handed to the image generator: [Some text]
    stands for the encoded image made from [text], [None] for the
    function's [return None]. *)

Definition blank (s : pystr) : bool := negb (nonempty (strip s)).

Definition make_wordcloud_base64 (df : DataFrame) (text_series : Series)
  : result (option pystr) :=
  let text := join [32%N] (dropna (values text_series)) in
  text <- (if blank text then
             topic <- getitem df (py "topic") ;;
             Ok (if any_notna (values topic)
                 then join [32%N] (dropna (values topic)) else text)
           else Ok text) ;;
  Ok (if blank text then None else Some text).

(** [s.fillna("").astype(str)] *)
Definition fillna_empty (s : Series) : Series :=
  mkSeries true (fmap (fun c => Some (default [] c)) (values s)).

Definition wordcloud_src (df : DataFrame) : result (option pystr) :=
  s <- getitem df (py "Review_Lematizada") ;;
  make_wordcloud_base64 df (fillna_empty s).

(** ** The script, top to bottom *)

Record Core := mkCore {
  frame : DataFrame;           (* [df] after preparation *)
  agg : list Agg;              (* sorted aggregates *)
  treemap_df : list TopicRow
}.

(** Lines 106-185. *)
Definition core (df0 : DataFrame) : result Core :=
  df <- normalizer df0 ;;
  df <- add_review_text df ;;
  a <- aggregator df ;;
  let a := sort_agg a in
  t <- topic_summarizer df (focus N a) ;;
  Ok (mkCore df a t).

(** Lines 106-201. *)
Definition pipeline (df0 : DataFrame) : result (Core * option pystr) :=
  c <- core df0 ;;
  w <- wordcloud_src (frame c) ;;
  Ok (c, w).

(** ** Reading the claims against the code

    Definitions used to state the properties: views of a frame, the
    recognised labels, and two readings that follow the design document's
    words where the code differs from them. *)

(** The values of column [k], or nothing when [df[k]] is not a Series. *)
Definition column_values (df : DataFrame) (k : pystr) : list cell :=
  match getitem df k with
  | Ok s => values s
  | Err _ => []
  end.

(** Every column of a frame has one value per row. *)
Definition wf_frame (df : DataFrame) : Prop :=
  Forall (fun c => length (values c.2) = nrows df) (columns df).

(** The distinct locations of a prepared frame. *)
Definition distinct_locations (df : DataFrame) : list pystr :=
  remove_dups (dropna (column_values df (py "lugar"))).

(** The distinct normalised locations of an input table, before any row is
    dropped. *)
Definition input_locations (df0 : DataFrame) : list pystr :=
  match getitem (rename df0) (py "lugar") with
  | Ok l => remove_dups (dropna (values (clean_lugar l)))
  | Err _ => []
  end.

Definition recognized : list pystr := [py "POS"; py "NEG"; py "NEU"].

(** The topic of a raw cell as the Normalizer compares it. *)
Definition trimmed_topic (c : cell) : cell := Some (strip (str_of_cell c)).

(** The mask of line 136 on a raw topic column. *)
Definition keep_mask (t : Series) : list bool :=
  fmap (fun c => negb (is_sentinel (trimmed_topic c))) (values t).

(** Document reading of the sentiment aggregation: every row of the input
    table is aggregated, whatever its topic. *)
Definition claimed_aggregator (df0 : DataFrame) : result (list Agg) :=
  l <- getitem (rename df0) (py "lugar") ;;
  s <- getitem (rename df0) (py "sent_label") ;;
  Ok (aggregate (zip (values (clean_lugar l)) (values s))).

(** Document reading of the resolver's score: the second factor is the
    fraction of rows populated. *)
Definition populated_fraction (df : DataFrame) (s : Series) : spec_float :=
  fdiv (float_of_nat (length (dropna (values s))))
       (float_of_nat (Nat.max 1 (nrows df))).

Definition claimed_score (df : DataFrame) (s : Series) : spec_float :=
  fmul (avg_len (take 200 (dropna (values s)))) (populated_fraction df s).

Definition maximizes_claimed_score (df : DataFrame) (r : option pystr) : Prop :=
  exists c s, r = Some c /\ (c, s) ∈ columns df /\ text_like s = true /\
    forall c' s', (c', s') ∈ columns df -> text_like s' = true ->
      fle (claimed_score df s') (claimed_score df s) = true.

(** What the fallback loop of the resolver leaves in [best]: nothing when
    no text-like column scores above zero, else the first text-like column
    of highest score. The scores are compared as the doubles they are: no
    later column scores above the returned one, and the returned one's
    score is not at or below that of an earlier column. *)
Definition best_of (df : DataFrame) (r : option pystr) : Prop :=
  let tcs := filter (fun c => text_like c.2 = true) (columns df) in
  match r with
  | None => forall c, c ∈ tcs -> fgt (score df c.2) fzero = false
  | Some k =>
    exists s pre post, tcs = pre ++ (k, s) :: post /\
      fgt (score df s) fzero = true /\
      (forall c, c ∈ pre -> fle (score df s) (score df c.2) = false) /\
      (forall c, c ∈ post -> fgt (score df c.2) (score df s) = false)
  end.

(** The first column whose lower-cased name is a canonical candidate. *)
Definition first_candidate (df : DataFrame) : option pystr :=
  head (filter (fun c => lower c ∈ review_names) (names df)).

(** What the loop has established after the columns [seen]. *)
Definition best_inv (df : DataFrame) (seen : list (pystr * Series))
    (st : option pystr * spec_float) : Prop :=
  match st.1 with
  | None => st.2 = fzero /\
            forall c, c ∈ seen -> fgt (score df c.2) fzero = false
  | Some k =>
    exists s pre post, seen = pre ++ (k, s) :: post /\
      st.2 = score df s /\
      fgt (score df s) fzero = true /\
      (forall c, c ∈ pre -> fle (score df s) (score df c.2) = false) /\
      (forall c, c ∈ post -> fgt (score df c.2) (score df s) = false)
  end.

(** The order of the doubles that are not NaN, as a lexicographic order on
    triples of integers: class, exponent, mantissa. *)
Definition fkey (f : spec_float) : option (Z * Z * Z) :=
  match f with
  | S754_zero _ => Some (0, 0, 0)%Z
  | S754_infinity s => Some (if s then (-2)%Z else 2%Z, 0%Z, 0%Z)
  | S754_nan => None
  | S754_finite s m e =>
    Some (if s then ((-1)%Z, (- e)%Z, Zneg m) else (1%Z, e, Zpos m))
  end.

Definition lex3 (a b : Z * Z * Z) : comparison :=
  match (a.1.1 ?= b.1.1)%Z with
  | Eq => match (a.1.2 ?= b.1.2)%Z with
          | Eq => (a.2 ?= b.2)%Z
          | c => c
          end
  | c => c
  end.

(** ** Further views of the script *)

(** Line 377: [total_reviews = len(df_copy)], the rows of the table as
    loaded. *)
Definition total_reviews (df0 : DataFrame) : nat := nrows df0.

(** Lines 125-131 on one value: what [clean_lugar] does to each cell. *)
Definition clean_location (c : cell) : pystr :=
  strip (replace_char 95 32 (sub_prefix (py "reseñas_") (str_of_cell c))).

(** A string that neither starts nor ends with white space. *)
Definition trimmed (s : pystr) : Prop :=
  (forall c, head s = Some c -> isspace c = false) /\
  (forall c, last s = Some c -> isspace c = false).

(** A string of white space only, the empty string included. *)
Definition all_space (s : pystr) : Prop := Forall (fun c => isspace c = true) s.

(** A row counted by the Aggregator: it has a location and a label. *)
Definition counted (r : cell * cell) : Prop := is_Some r.1 /\ is_Some r.2.

(** ** Sample tables *)

Definition strs (l : list pystr) : Series := mkSeries true (fmap Some l).

(** Three reviews of one museum, no topic column. *)
Definition frame_museo : DataFrame :=
  mkFrame
    [(py "Lugar", strs (replicate 3 (py "reseñas_MuseoX")));
     (py "SentLabel", strs [py "POS"; py "POS"; py "NEG"])] 3.

(** Two reviews of one place; the first has the sentinel topic. *)
Definition frame_sentinel : DataFrame :=
  mkFrame
    [(py "Lugar", strs [py "A"; py "A"]);
     (py "SentLabel", strs [py "POS"; py "NEG"]);
     (py "Topic", strs [py "-1"; py "3"]);
     (py "Review_Lematizada", strs [py "bonito"; py "caro"])] 2.

(** A table with the two mandatory columns only. *)
Definition frame_no_review : DataFrame :=
  mkFrame
    [(py "Lugar", strs [py "A"]);
     (py "SentLabel", strs [py "POS"])] 1.

(** One place, one label outside the recognised three, one missing. *)
Definition frame_labels : DataFrame :=
  mkFrame
    [(py "lugar", strs [py "A"; py "A"; py "A"; py "B"]);
     (py "sent_label",
      mkSeries true [Some (py "POS"); Some (py "MIXED"); None; Some (py "NEU")])]
    4.

(** [k] places named by one letter each, one review per place. *)
Definition frame_places (k : nat) : DataFrame :=
  mkFrame
    [(py "Lugar", strs (fmap (fun i => [N.of_nat (65 + i)]) (seq 0 k)));
     (py "SentLabel", strs (replicate k (py "POS")))] k.

(** 400 rows: [a] is populated everywhere with 4-character strings, [b] in
    the first 100 rows with 12-character strings. *)
Definition frame_resolver : DataFrame :=
  mkFrame
    [(py "a", strs (replicate 400 (py "xxxx")));
     (py "b", mkSeries true (replicate 100 (Some (py "yyyyyyyyyyyy"))
                             ++ replicate 300 None))] 400.

(** Three rows whose two columns have the same exact score 5/3; as doubles
    5.0 * (1/3) is below 5/3 * 1.0. *)
Definition frame_tie : DataFrame :=
  mkFrame
    [(py "a", mkSeries true [Some (py "xxxxx"); None; None]);
     (py "b", strs [py "xx"; py "xx"; py "x"])] 3.


(** Every topic is the sentinel "-1" (one of them padded). *)
Definition frame_minus1 : DataFrame :=
  mkFrame
    [(py "Lugar", strs [py "A"; py "B"; py "A"]);
     (py "SentLabel", strs [py "POS"; py "NEG"; py "NEU"]);
     (py "Topic", strs [py "-1"; py " -1 "; py "-1"])] 3.

(** Forty reviews of one place on a topic the dictionary does not list. *)
Definition frame_topic99 : DataFrame :=
  mkFrame
    [(py "Lugar", strs (replicate 40 (py "A")));
     (py "SentLabel", strs (replicate 40 (py "POS")));
     (py "Topic", strs (replicate 40 (py "99")));
     (py "Review_Lematizada", strs (replicate 40 (py "bonito")))] 40.

(** * Properties *)

(** ** Strings *)

Example py_resenas :
  py "reseñas_" = [114; 101; 115; 101; 241; 97; 115; 95]%N.
Proof. reflexivity. Qed.

Example strip_example : strip (py "  Museo X	 ") = py "Museo X".
Proof. reflexivity. Qed.

Example lower_example : lower (py "Review_Lematizada") = py "review_lematizada".
Proof. reflexivity. Qed.

Arguments py : simpl never.

(** ** Frames *)

Lemma getitem_not_ValueError df k : getitem df k <> Err ValueError.
Proof. unfold getitem. repeat case_match; discriminate. Qed.

Lemma getitem_Ok_elem df k s : getitem df k = Ok s -> (k, s) ∈ columns df.
Proof.
  unfold getitem. intros H.
  destruct (filter _ (columns df)) as [|[k' s'] [|? ?]] eqn:E; try discriminate.
  injection H as <-.
  assert (Hin : (k', s') ∈ filter (fun c => c.1 = k) (columns df))
    by (rewrite E; apply list_elem_of_here).
  apply list_elem_of_filter in Hin as [Hk Hin]. simpl in Hk. by subst.
Qed.

Lemma getitem_Ok_names df k s : getitem df k = Ok s -> k ∈ names df.
Proof.
  intros H%getitem_Ok_elem. unfold names.
  apply list_elem_of_fmap. by exists (k, s).
Qed.

Lemma getitem_KeyError df k : k ∉ names df -> getitem df k = Err (KeyError k).
Proof.
  intros Hk. unfold getitem.
  destruct (filter _ (columns df)) as [|c r] eqn:E; [done|].
  exfalso. apply Hk.
  assert (Hin : c ∈ filter (fun c => c.1 = k) (columns df))
    by (rewrite E; apply list_elem_of_here).
  apply list_elem_of_filter in Hin as [Hc Hin].
  unfold names. apply list_elem_of_fmap. by exists c.
Qed.

(** A name occurring once selects its column. *)
Lemma filter_key_NoDup (cols : list (pystr * Series)) k s :
  NoDup cols.*1 -> (k, s) ∈ cols -> filter (fun c => c.1 = k) cols = [(k, s)].
Proof.
  induction cols as [|[k' s'] cols IH]; intros Hnd Hin.
  - by apply elem_of_nil in Hin.
  - rewrite fmap_cons in Hnd. apply NoDup_cons in Hnd as [Hk' Hnd].
    rewrite filter_cons. simpl. apply elem_of_cons in Hin as [Heq|Hin].
    + injection Heq as <- <-. rewrite decide_True by done. f_equal.
      destruct (filter _ cols) as [|c r] eqn:E; [done|]. exfalso.
      assert (Hc : c ∈ filter (fun c => c.1 = k) cols)
        by (rewrite E; apply list_elem_of_here).
      apply list_elem_of_filter in Hc as [Hc1 Hc2]. apply Hk'.
      apply list_elem_of_fmap. by exists c.
    + rewrite decide_False; [by apply IH|].
      intros ->. apply Hk'. apply list_elem_of_fmap. by exists (k, s).
Qed.

Lemma getitem_NoDup df k s :
  NoDup (names df) -> (k, s) ∈ columns df -> getitem df k = Ok s.
Proof.
  intros Hnd Hin. unfold getitem. by rewrite (filter_key_NoDup _ k s).
Qed.

(** Selection of the columns named [k] commutes with a map that keeps
    names. *)
Lemma filter_key_fmap (f : pystr * Series -> pystr * Series) k
    (cols : list (pystr * Series)) :
  (forall c, (f c).1 = k <-> c.1 = k) ->
  filter (fun c => c.1 = k) (f <$> cols) = f <$> filter (fun c => c.1 = k) cols.
Proof.
  intros Hf. induction cols as [|c cols IH]; [done|].
  rewrite fmap_cons, !filter_cons, IH.
  destruct (decide (c.1 = k)) as [Hc|Hc].
  - rewrite decide_True by by apply Hf. done.
  - rewrite decide_False; [done|]. by rewrite Hf.
Qed.

Lemma has_col_true k df : has_col k df = true <-> k ∈ names df.
Proof. unfold has_col. apply bool_decide_eq_true. Qed.

Lemma has_col_false k df : has_col k df = false <-> k ∉ names df.
Proof. unfold has_col. apply bool_decide_eq_false. Qed.

Lemma names_setitem_present df k s :
  k ∈ names df -> names (setitem df k s) = names df.
Proof.
  intros Hk. unfold setitem. apply has_col_true in Hk as ->.
  unfold names. simpl. rewrite <- list_fmap_compose.
  apply list_fmap_ext. intros ? c _. simpl. by case_decide.
Qed.

Lemma names_setitem_absent df k s :
  k ∉ names df -> names (setitem df k s) = names df ++ [k].
Proof.
  intros Hk. unfold setitem. apply has_col_false in Hk as ->.
  unfold names. simpl. by rewrite fmap_app.
Qed.

Lemma elem_of_names_setitem df k s x :
  x ∈ names (setitem df k s) <-> x ∈ names df \/ x = k.
Proof.
  destruct (decide (k ∈ names df)) as [Hk|Hk].
  - rewrite names_setitem_present by done. split; [by left|].
    by intros [?| ->].
  - rewrite names_setitem_absent by done.
    rewrite elem_of_app, list_elem_of_singleton. done.
Qed.

Lemma nrows_setitem df k s : nrows (setitem df k s) = nrows df.
Proof. unfold setitem. by destruct (has_col k df). Qed.

Lemma names_filter_rows m df : names (filter_rows m df) = names df.
Proof.
  unfold names, filter_rows. simpl. rewrite <- list_fmap_compose.
  by apply list_fmap_ext.
Qed.

Lemma getitem_setitem_eq df k s s0 :
  getitem df k = Ok s0 -> getitem (setitem df k s) k = Ok s.
Proof.
  intros H. pose proof (getitem_Ok_names _ _ _ H) as Hk.
  unfold setitem. apply has_col_true in Hk as ->.
  unfold getitem in *. simpl.
  rewrite filter_key_fmap by (intros c; case_decide; simpl; naive_solver).
  destruct (filter _ (columns df)) as [|c [|? ?]] eqn:E; try discriminate.
  assert (Hc : c ∈ filter (fun c => c.1 = k) (columns df))
    by (rewrite E; apply list_elem_of_here).
  apply list_elem_of_filter in Hc as [Hc _].
  simpl. by rewrite decide_True.
Qed.

Lemma getitem_setitem_ne df k k' s :
  k <> k' -> getitem (setitem df k' s) k = getitem df k.
Proof.
  intros Hne. unfold setitem, getitem.
  destruct (has_col k' df); simpl.
  - rewrite filter_key_fmap by (intros c; case_decide; simpl; naive_solver).
    assert (Hid : forall l : list (pystr * Series),
      Forall (fun c => c.1 = k) l ->
      (fun c => if decide (c.1 = k') then (k', s) else c) <$> l = l).
    { induction 1 as [|c l Hc _ IH]; [done|].
      rewrite fmap_cons, IH. f_equal. case_decide; [congruence|done]. }
    rewrite Hid; [done|].
    apply Forall_forall. by intros c [? _]%list_elem_of_filter.
  - rewrite filter_app, filter_cons, decide_False by (simpl; congruence).
    by rewrite filter_nil, app_nil_r.
Qed.

Lemma getitem_filter_rows m df k :
  getitem (filter_rows m df) k = (s <- getitem df k ;; Ok (select m s)).
Proof.
  unfold getitem, filter_rows. simpl.
  rewrite filter_key_fmap by done.
  by destruct (filter _ (columns df)) as [|c [|? ?]].
Qed.

(** ** Counting labels *)

Lemma count_split g :
  count_notna g =
  count_label (py "POS") g + count_label (py "NEG") g
  + count_label (py "NEU") g
  + length (filter (fun s => s ∉ recognized) (dropna g)).
Proof.
  unfold count_notna, count_label, dropna.
  induction g as [|[s|] g IH]; [done| |].
  - change (omap id (Some s :: g)) with (s :: omap id g).
    rewrite !filter_cons. change (str_of_cell (Some s)) with s.
    destruct (decide (s = py "POS")) as [->|H1];
      [|destruct (decide (s = py "NEG")) as [->|H2];
        [|destruct (decide (s = py "NEU")) as [->|H3]]].
    + rewrite (decide_False (P := py "POS" = py "NEG")) by done.
      rewrite (decide_False (P := py "POS" = py "NEU")) by done.
      rewrite decide_False by (intros H; apply H; unfold recognized; set_solver).
      simpl length. lia.
    + rewrite (decide_False (P := py "NEG" = py "NEU")) by done.
      rewrite decide_False by (intros H; apply H; unfold recognized; set_solver).
      simpl length. lia.
    + rewrite decide_False by (intros H; apply H; unfold recognized; set_solver).
      simpl length. lia.
    + rewrite decide_True
        by (unfold recognized; rewrite !not_elem_of_cons;
            repeat split; [done..|apply not_elem_of_nil]).
      simpl length. lia.
  - change (omap id (None :: g)) with (omap id g).
    rewrite !filter_cons. change (str_of_cell None) with (py "nan").
    rewrite !decide_False by done. done.
Qed.

Lemma elem_of_aggregate rows a :
  a ∈ aggregate rows -> a = aggregate_group rows (lugar a).
Proof.
  unfold aggregate. intros (k & -> & _)%list_elem_of_fmap. done.
Qed.

(** ** Sorting and selection *)

Lemma insert_sorted_perm {A} (le : A -> A -> bool) x l :
  insert_sorted le x l ≡ₚ x :: l.
Proof.
  induction l as [|y l IH]; simpl; [done|].
  destruct (le x y); [done|]. rewrite IH. apply Permutation_swap.
Qed.

Lemma stable_sort_perm {A} (le : A -> A -> bool) l : stable_sort le l ≡ₚ l.
Proof.
  induction l as [|x l IH]; simpl; [done|].
  rewrite insert_sorted_perm. by f_equiv.
Qed.

Lemma filter_all {A} (P : A -> Prop) `{!forall x, Decision (P x)} (l : list A) :
  Forall P l -> filter P l = l.
Proof.
  induction 1 as [|x l Hx _ IH]; [done|].
  by rewrite filter_cons_True, IH.
Qed.

Lemma filter_none {A} (P : A -> Prop) `{!forall x, Decision (P x)} (l : list A) :
  Forall (fun x => ~ P x) l -> filter P l = [].
Proof.
  induction 1 as [|x l Hx _ IH]; [done|].
  by rewrite filter_cons_False.
Qed.

Lemma elem_of_take_elem {A} n (l : list A) x : x ∈ take n l -> x ∈ l.
Proof.
  intros (i & Hi & _)%elem_of_take. by eapply list_elem_of_lookup_2.
Qed.

Lemma elem_of_bottom_resto n agg b : b ∈ bottom n agg -> b ∈ resto n agg.
Proof.
  unfold bottom. intros Hb%elem_of_take_elem.
  by rewrite stable_sort_perm in Hb.
Qed.

(** The bottom rows are taken among the rows whose location is not in the
    top set, whatever the number of rows. *)
Lemma top_bottom_disjoint n agg a b :
  a ∈ top n agg -> b ∈ bottom n agg -> lugar a <> lugar b.
Proof.
  intros Ha Hb%elem_of_bottom_resto Heq.
  unfold resto in Hb. apply list_elem_of_filter in Hb as [Hb _].
  apply Hb. rewrite <- Heq. by apply list_elem_of_fmap_2.
Qed.

Lemma filter_not_in_prefix (l1 l2 : list Agg) :
  NoDup (lugar <$> (l1 ++ l2)) ->
  filter (fun a => lugar a ∉ lugar <$> l1) (l1 ++ l2) = l2.
Proof.
  rewrite fmap_app. intros (_ & Hdis & _)%NoDup_app.
  rewrite filter_app, filter_none, filter_all; [done| |].
  - apply Forall_forall. intros a Ha Hin.
    by apply (Hdis (lugar a)); [|apply list_elem_of_fmap_2].
  - apply Forall_forall. intros a Ha Hn. apply Hn.
    by apply list_elem_of_fmap_2.
Qed.

(** With one row per location, the remainder is what follows the top rows. *)
Lemma resto_drop n agg : NoDup (lugar <$> agg) -> resto n agg = drop n agg.
Proof.
  intros Hnd. unfold resto, top.
  transitivity (filter (fun a => lugar a ∉ lugar <$> take n agg)
                       (take n agg ++ drop n agg)).
  - by rewrite take_drop.
  - apply filter_not_in_prefix. by rewrite take_drop.
Qed.

Lemma length_top n agg : length (top n agg) = n `min` length agg.
Proof. apply length_take. Qed.

Lemma length_bottom n agg :
  NoDup (lugar <$> agg) ->
  length (bottom n agg) = n `min` (length agg - n `min` length agg).
Proof.
  intros Hnd. unfold bottom.
  rewrite length_take, (Permutation_length (stable_sort_perm _ _)).
  rewrite resto_drop, length_drop by done. lia.
Qed.

(** ** Aggregates *)

Lemma lugar_aggregate rows : lugar <$> aggregate rows = group_keys rows.*1.
Proof.
  unfold aggregate. rewrite <- list_fmap_compose.
  rewrite <- (list_fmap_id (group_keys rows.*1)) at 2.
  by apply list_fmap_ext.
Qed.

Lemma group_keys_perm l : group_keys l ≡ₚ remove_dups (dropna l).
Proof. apply stable_sort_perm. Qed.

Lemma NoDup_lugar_aggregate rows : NoDup (lugar <$> aggregate rows).
Proof.
  rewrite lugar_aggregate, group_keys_perm. apply NoDup_remove_dups.
Qed.

Lemma NoDup_lugar_sort_agg rows : NoDup (lugar <$> sort_agg (aggregate rows)).
Proof.
  unfold sort_agg. rewrite stable_sort_perm. apply NoDup_lugar_aggregate.
Qed.

Lemma length_sort_agg rows :
  length (sort_agg (aggregate rows)) = length (remove_dups (dropna rows.*1)).
Proof.
  unfold sort_agg. rewrite (Permutation_length (stable_sort_perm _ _)).
  rewrite <- (length_fmap lugar), lugar_aggregate.
  apply Permutation_length, group_keys_perm.
Qed.

(** ** Well-formed frames *)

Lemma length_mask_select {A B} (m : list bool) (l1 : list A) (l2 : list B) :
  length l1 = length l2 ->
  length (mask_select m l1) = length (mask_select m l2).
Proof.
  revert l1 l2. induction m as [|b m IH]; intros [|x l1] [|y l2] H;
    simpl in *; try done.
  injection H as H. destruct b; simpl; auto.
Qed.

Lemma wf_frame_elem df k s :
  wf_frame df -> (k, s) ∈ columns df -> length (values s) = nrows df.
Proof.
  unfold wf_frame. rewrite Forall_forall. intros H Hin. by apply (H (k, s)).
Qed.

Lemma wf_frame_getitem df k s :
  wf_frame df -> getitem df k = Ok s -> length (values s) = nrows df.
Proof. intros Hwf H%getitem_Ok_elem. by eapply wf_frame_elem. Qed.

Lemma wf_frame_rename_columns m df : wf_frame df -> wf_frame (rename_columns m df).
Proof.
  unfold wf_frame, rename_columns. simpl. rewrite Forall_fmap.
  intros H. eapply Forall_impl; [exact H|done].
Qed.

Lemma wf_frame_setitem df k s :
  wf_frame df -> length (values s) = nrows df -> wf_frame (setitem df k s).
Proof.
  unfold wf_frame, setitem. intros Hwf Hs.
  destruct (has_col k df); simpl.
  - rewrite Forall_fmap. eapply Forall_impl; [exact Hwf|].
    intros c Hc. simpl. by case_decide.
  - apply Forall_app. split; [done|]. by apply Forall_singleton.
Qed.

Lemma wf_frame_filter_rows m df : wf_frame df -> wf_frame (filter_rows m df).
Proof.
  unfold wf_frame, filter_rows. simpl. intros Hwf. rewrite Forall_fmap.
  eapply Forall_impl; [exact Hwf|]. intros c Hc. simpl.
  apply length_mask_select. by rewrite length_replicate.
Qed.

(** ** The Normalizer *)

Lemma values_trimmed t :
  values (str_map strip (astype_str t)) = trimmed_topic <$> values t.
Proof.
  unfold str_map, astype_str. simpl. rewrite <- list_fmap_compose.
  by apply list_fmap_ext.
Qed.

Lemma length_clean_lugar l : length (values (clean_lugar l)) = length (values l).
Proof.
  unfold clean_lugar, str_map, astype_str. simpl. by rewrite !length_fmap.
Qed.

(** The frame the Normalizer returns, in the two cases of line 134. *)
Lemma normalizer_Ok df0 df :
  normalizer df0 = Ok df ->
  exists l, getitem (rename df0) (py "lugar") = Ok l /\
    py "sent_label" ∈ names (rename df0) /\
    ((exists t, getitem (rename df0) (py "topic") = Ok t /\
        df = filter_rows (keep_mask t)
               (setitem (setitem (rename df0) (py "lugar") (clean_lugar l))
                        (py "topic") (str_map strip (astype_str t))))
     \/ ((py "topic" ∉ names (rename df0)) /\
         df = setitem (setitem (rename df0) (py "lugar") (clean_lugar l))
                (py "topic")
                (mkSeries true (replicate (nrows (rename df0)) None)))).
Proof.
  unfold normalizer.
  destruct (has_col (py "lugar") (rename df0)) eqn:Hl; [|done].
  destruct (has_col (py "sent_label") (rename df0)) eqn:Hs; [|done].
  cbn [negb orb]. apply has_col_true in Hl, Hs.
  destruct (getitem (rename df0) (py "lugar")) as [l|e] eqn:El; [|done].
  cbn [rbind]. intros H. exists l. split; [done|]. split; [done|].
  destruct (has_col (py "topic") (setitem _ _ _)) eqn:Ht.
  - left. rewrite getitem_setitem_ne in H by done.
    destruct (getitem (rename df0) (py "topic")) as [t|e] eqn:Et; [|done].
    cbn [rbind] in H. exists t. split; [done|].
    injection H as <-. unfold keep_mask. f_equal.
    rewrite <- !list_fmap_compose. by apply list_fmap_ext.
  - right. apply has_col_false in Ht.
    rewrite names_setitem_present in Ht by done.
    split; [done|]. injection H as <-. by rewrite nrows_setitem.
Qed.

Lemma wf_frame_normalizer df0 df :
  wf_frame df0 -> normalizer df0 = Ok df -> wf_frame df.
Proof.
  intros Hwf (l & Hl & _ & H)%normalizer_Ok.
  assert (Hwr : wf_frame (rename df0)) by by apply wf_frame_rename_columns.
  assert (Hw1 : wf_frame (setitem (rename df0) (py "lugar") (clean_lugar l))).
  { apply wf_frame_setitem; [done|].
    rewrite length_clean_lugar. by eapply wf_frame_getitem. }
  destruct H as [(t & Ht & ->)|(_ & ->)].
  - apply wf_frame_filter_rows, wf_frame_setitem; [done|].
    rewrite values_trimmed, length_fmap, nrows_setitem.
    by eapply wf_frame_getitem.
  - apply wf_frame_setitem; [done|]. simpl.
    by rewrite length_replicate, nrows_setitem.
Qed.

(** ** The review-text column and the whole preparation *)

Lemma add_review_text_cases df df' :
  add_review_text df = Ok df' ->
  df' = df \/ exists s, df' = setitem df (py "review_text") s /\
                        (wf_frame df -> length (values s) = nrows df).
Proof.
  unfold add_review_text.
  destruct (detect_review_column df) as [r|e]; [|done]. simpl.
  destruct (has_col (py "review_text") df); [intros [= <-]; by left|].
  destruct r as [c|].
  - destruct (nonempty c).
    + destruct (getitem df c) as [s|e] eqn:Ec; [|done]. simpl.
      intros [= <-]. right. exists s. split; [done|].
      intros Hwf. by eapply wf_frame_getitem.
    + intros [= <-]. right. eexists. split; [done|].
      intros _. simpl. by rewrite length_replicate.
  - intros [= <-]. right. eexists. split; [done|].
    intros _. simpl. by rewrite length_replicate.
Qed.

Lemma add_review_text_getitem df df' k :
  add_review_text df = Ok df' -> k <> py "review_text" ->
  getitem df' k = getitem df k.
Proof.
  intros [->|(s & -> & _)]%add_review_text_cases Hk; [done|].
  by apply getitem_setitem_ne.
Qed.

Lemma wf_frame_add_review_text df df' :
  wf_frame df -> add_review_text df = Ok df' -> wf_frame df'.
Proof.
  intros Hwf [->|(s & -> & Hs)]%add_review_text_cases; [done|].
  apply wf_frame_setitem; auto.
Qed.

Lemma core_Ok df0 c :
  core df0 = Ok c ->
  exists df rows, normalizer df0 = Ok df /\
    add_review_text df = Ok (frame c) /\
    sentiment_rows (frame c) = Ok rows /\
    agg c = sort_agg (aggregate rows) /\
    topic_summarizer (frame c) (focus N (agg c)) = Ok (treemap_df c).
Proof.
  unfold core, aggregator.
  destruct (normalizer df0) as [df|e] eqn:En; [|done]. cbn [rbind].
  destruct (add_review_text df) as [df'|e] eqn:Er; [|done]. cbn [rbind].
  destruct (sentiment_rows df') as [rows|e] eqn:Es; [|done]. cbn [rbind].
  destruct (topic_summarizer df' _) as [t|e] eqn:Et; [|done]. cbn [rbind].
  intros [= <-]. cbn [frame agg treemap_df]. exists df, rows. by repeat split.
Qed.

Lemma sentiment_rows_fst df rows :
  wf_frame df -> sentiment_rows df = Ok rows ->
  rows.*1 = column_values df (py "lugar").
Proof.
  unfold sentiment_rows, column_values. intros Hwf.
  destruct (getitem df (py "lugar")) as [l|e] eqn:El; [|done]. simpl.
  destruct (getitem df (py "sent_label")) as [s|e] eqn:Es; [|done]. simpl.
  intros [= <-]. apply fst_zip.
  by rewrite (wf_frame_getitem _ _ _ Hwf El), (wf_frame_getitem _ _ _ Hwf Es).
Qed.

(** ** Rows kept by the topic filter *)

Lemma mask_select_kept {A} (p : A -> bool) (l : list A) x :
  x ∈ mask_select (p <$> l) l -> p x = true.
Proof.
  induction l as [|y l IH]; simpl; [by intros ?%elem_of_nil|].
  destruct (p y) eqn:Hy; [|done].
  intros [->|?]%elem_of_cons; auto.
Qed.

Lemma mask_select_none {A} (m : list bool) (l : list A) :
  Forall (fun b => b = false) m -> mask_select m l = [].
Proof.
  intros H. revert l. induction H as [|b m -> _ IH]; intros [|x l]; simpl; auto.
Qed.

Lemma normalizer_topic df0 l t :
  getitem (rename df0) (py "lugar") = Ok l ->
  py "sent_label" ∈ names (rename df0) ->
  getitem (rename df0) (py "topic") = Ok t ->
  normalizer df0
  = Ok (filter_rows (keep_mask t)
          (setitem (setitem (rename df0) (py "lugar") (clean_lugar l))
                   (py "topic") (str_map strip (astype_str t)))).
Proof.
  intros Hl Hs Ht. unfold normalizer.
  pose proof (getitem_Ok_names _ _ _ Hl) as Hl'.
  pose proof (getitem_Ok_names _ _ _ Ht) as Ht'.
  apply has_col_true in Hl' as ->. apply has_col_true in Hs as ->.
  cbn [negb orb]. rewrite Hl. cbn [rbind].
  assert (Hh : has_col (py "topic")
                 (setitem (rename df0) (py "lugar") (clean_lugar l)) = true).
  { apply has_col_true, elem_of_names_setitem. by left. }
  rewrite Hh, getitem_setitem_ne, Ht by done. cbn [rbind].
  f_equal. f_equal. unfold keep_mask.
  change (values (str_map strip (astype_str t)))
    with ((fun c : cell => strip <$> c) <$>
          ((fun c : cell => Some (str_of_cell c)) <$> values t)).
  rewrite <- !list_fmap_compose. by apply list_fmap_ext.
Qed.

(** The three columns of the frame the Normalizer returns when the table has
    a topic column: the rows of the mask, nothing else. *)
Lemma normalizer_topic_columns df0 l s t :
  getitem (rename df0) (py "lugar") = Ok l ->
  getitem (rename df0) (py "sent_label") = Ok s ->
  getitem (rename df0) (py "topic") = Ok t ->
  exists df, normalizer df0 = Ok df /\
    names df = names (rename df0) /\
    getitem df (py "lugar") = Ok (select (keep_mask t) (clean_lugar l)) /\
    getitem df (py "sent_label") = Ok (select (keep_mask t) s) /\
    getitem df (py "topic")
    = Ok (select (keep_mask t) (str_map strip (astype_str t))).
Proof.
  intros Hl Hs Ht. eexists. split.
  { apply normalizer_topic; [done| |done]. by eapply getitem_Ok_names. }
  assert (Ht1 : getitem (setitem (rename df0) (py "lugar") (clean_lugar l))
                  (py "topic") = Ok t)
    by by rewrite getitem_setitem_ne.
  split; [|split; [|split]].
  - rewrite names_filter_rows, !names_setitem_present; [done|..].
    + by eapply getitem_Ok_names.
    + by eapply getitem_Ok_names.
  - rewrite getitem_filter_rows, getitem_setitem_ne by done.
    by rewrite (getitem_setitem_eq _ _ _ _ Hl).
  - rewrite getitem_filter_rows, !getitem_setitem_ne by done.
    by rewrite Hs.
  - rewrite getitem_filter_rows.
    by rewrite (getitem_setitem_eq _ _ _ _ Ht1).
Qed.

(** ** Column names through the preparation *)

Lemma rename_map_targets k v :
  rename_map !! k = Some v ->
  v ∈ [py "lugar"; py "sent_label"; py "sent_score"; py "topic";
       py "review_text"].
Proof.
  intros H. apply elem_of_list_to_map_2 in H.
  repeat (apply elem_of_cons in H as [[= _ <-]|H];
          [vm_compute; repeat first [apply list_elem_of_here
                                    |apply list_elem_of_further]|]).
  by apply elem_of_nil in H.
Qed.

Lemma elem_of_names_rename df0 x :
  x ∈ names (rename df0) ->
  x ∈ names df0 \/
  x ∈ [py "lugar"; py "sent_label"; py "sent_score"; py "topic";
       py "review_text"].
Proof.
  unfold rename, rename_columns, names. simpl.
  rewrite <- list_fmap_compose.
  intros ([k s] & -> & Hin)%list_elem_of_fmap. simpl.
  destruct (present_renames df0 !! k) as [v|] eqn:E; simpl.
  - right. unfold present_renames in E.
    apply map_lookup_filter_Some in E as [E _].
    by eapply rename_map_targets.
  - left. apply list_elem_of_fmap. exists (k, s). split; [reflexivity|exact Hin].
Qed.

Lemma elem_of_names_normalizer df0 df x :
  normalizer df0 = Ok df -> x ∈ names df ->
  x ∈ names (rename df0) \/ x = py "lugar" \/ x = py "topic".
Proof.
  intros (l & Hl & _ & [(t & Ht & ->)|(_ & ->)])%normalizer_Ok.
  - rewrite names_filter_rows, !elem_of_names_setitem. tauto.
  - rewrite !elem_of_names_setitem. tauto.
Qed.

Lemma elem_of_names_add_review_text df df' x :
  add_review_text df = Ok df' -> x ∈ names df' ->
  x ∈ names df \/ x = py "review_text".
Proof.
  intros [->|(s & -> & _)]%add_review_text_cases; [by left|].
  by rewrite elem_of_names_setitem.
Qed.

(** ** The topic dictionary *)

Lemma no_neg_key tid : topic_descriptions !! (py "neg_" ++ tid) = None.
Proof.
  destruct (topic_descriptions !! (py "neg_" ++ tid)) as [v|] eqn:E; [|done].
  exfalso. apply elem_of_list_to_map_2 in E. unfold topic_entries in E.
  repeat (apply elem_of_cons in E as [E|E];
          [apply (f_equal fst) in E; vm_compute in E; discriminate|]).
  by apply elem_of_nil in E.
Qed.

Lemma dict_get_neg tid :
  dict_get topic_descriptions (py "neg_" ++ tid) [] = [].
Proof. unfold dict_get. by rewrite no_neg_key. Qed.

(** The row built for a topic: the description is the dictionary entry of
    the trimmed identifier, empty when there is none; the label exists only
    when that description is not empty. *)
Lemma map_topic_row_spec topic m :
  let r := map_topic_row topic m in
  topic_id r = strip topic /\
  description r = dict_get topic_descriptions (strip topic) [] /\
  label r = (if nonempty (description r)
             then Some (py "Tópico " ++ strip topic) else None) /\
  topic_mentions r = m.
Proof.
  unfold map_topic_row, short_label.
  cbn [topic_id description label topic_mentions].
  rewrite !dict_get_neg. done.
Qed.

(** ** The column resolver *)

Lemma text_cols_columns df (cs : list (pystr * Series)) :
  NoDup (names df) -> (forall c, c ∈ cs -> c ∈ columns df) ->
  text_cols df cs.*1 = Ok (filter (fun c => text_like c.2 = true) cs).
Proof.
  intros Hnd. induction cs as [|[k s] cs IH]; intros Hsub; [done|].
  rewrite fmap_cons. cbn [text_cols fst].
  rewrite (getitem_NoDup df k s) by (auto using list_elem_of_here).
  cbn [rbind]. rewrite IH by (intros c Hc; by apply Hsub, list_elem_of_further).
  cbn [rbind]. rewrite filter_cons. cbn [snd].
  destruct (text_like s); [by rewrite decide_True|by rewrite decide_False].
Qed.

Lemma SFcompare_key a b :
  SFcompare a b =
  match fkey a, fkey b with
  | Some ka, Some kb => Some (lex3 ka kb)
  | _, _ => None
  end.
Proof.
  destruct a as [[|]|[|]| |[|] m1 e1], b as [[|]|[|]| |[|] m2 e2];
    try reflexivity; cbn -[Z.compare Z.opp]; unfold lex3;
    cbn -[Z.compare Z.opp].
  rewrite Z.compare_opp. rewrite (Z.compare_antisym e1 e2).
  destruct (e1 ?= e2)%Z; cbn; reflexivity.
Qed.

Ltac float_order :=
  unfold fgt, fle, SFltb, SFleb; rewrite ?SFcompare_key;
  repeat match goal with
  | |- context [fkey ?x] => destruct (fkey x) as [[[? ?] ?]|]
  end;
  unfold lex3; cbn [fst snd];
  repeat match goal with
  | |- context [(?x ?= ?y)%Z] => destruct (Z.compare_spec x y)
  end; try reflexivity; try discriminate; try lia.

Lemma fgt_trans a b c : fgt a b = true -> fgt b c = true -> fgt a c = true.
Proof. float_order. Qed.

Lemma fgt_not_fle s b : fgt s b = true -> fle s b = false.
Proof. float_order. Qed.

Lemma fle_raise b x s :
  fle b x = false -> fgt s b = true -> fle s x = false.
Proof. float_order. Qed.

Lemma fgt_raise b x s :
  fgt x b = false -> fgt s b = true -> fle s x = false.
Proof. float_order. Qed.

Lemma fgt_keep b x s :
  fgt x b = false -> fgt s b = true -> fgt x s = false.
Proof. float_order. Qed.

Lemma best_step_inv df seen st c :
  best_inv df seen st -> best_inv df (seen ++ [c]) (best_step df st c).
Proof.
  unfold best_inv, best_step. destruct st as [[k|] q]; cbn [fst snd].
  - intros (s & pre & post & -> & -> & Hpos & Hpre & Hpost).
    destruct (fgt (score df c.2) (score df s)) eqn:E; cbn [fst snd].
    + exists c.2, (pre ++ (k, s) :: post), [].
      destruct c as [kc sc]. cbn [fst snd] in *. repeat split; auto.
      * by eapply fgt_trans.
      * intros x [Hx|[->|Hx]%elem_of_cons]%elem_of_app; cbn [snd].
        -- eapply fle_raise; [by apply Hpre|done].
        -- by apply fgt_not_fle.
        -- eapply fgt_raise; [by apply Hpost|done].
      * by intros x ?%elem_of_nil.
    + exists s, pre, (post ++ [c]). rewrite <- app_assoc. repeat split; auto.
      intros x [Hx| ->%list_elem_of_singleton]%elem_of_app; auto.
  - intros [-> Hall].
    destruct (fgt (score df c.2) fzero) eqn:E; cbn [fst snd].
    + exists c.2, seen, []. destruct c as [kc sc]. cbn [fst snd] in *.
      repeat split; auto.
      * intros x Hx. eapply fgt_raise; [by apply Hall|done].
      * by intros x ?%elem_of_nil.
    + split; [done|].
      intros x [Hx| ->%list_elem_of_singleton]%elem_of_app; auto.
Qed.

Lemma best_fold_inv df tcs seen st :
  best_inv df seen st ->
  best_inv df (seen ++ tcs) (fold_left (best_step df) tcs st).
Proof.
  revert seen st. induction tcs as [|c tcs IH]; intros seen st H.
  - by rewrite app_nil_r.
  - cbn [fold_left].
    replace (seen ++ c :: tcs) with ((seen ++ [c]) ++ tcs)
      by by rewrite <- app_assoc.
    by apply IH, best_step_inv.
Qed.

Lemma best_fold_best_of df :
  best_of df
    (fold_left (best_step df)
       (filter (fun c => text_like c.2 = true) (columns df)) (None, fzero)).1.
Proof.
  pose proof (best_fold_inv df
    (filter (fun c => text_like c.2 = true) (columns df)) [] (None, fzero)) as H.
  rewrite app_nil_l in H. unfold best_inv in H. unfold best_of.
  destruct (fold_left _ _ _) as [[k|] q]; cbn [fst snd] in *.
  - destruct H as (s & pre & post & E & _ & Hpos & Hpre & Hpost).
    { split; [done|]. by intros c ?%elem_of_nil. }
    by exists s, pre, post.
  - apply H. split; [done|]. by intros c ?%elem_of_nil.
Qed.

Lemma detect_review_column_candidate df c :
  first_candidate df = Some c -> detect_review_column df = Ok (Some c).
Proof.
  unfold first_candidate, detect_review_column.
  destruct (filter _ (names df)); [done|]. by intros [= ->].
Qed.

Lemma detect_review_column_fallback df :
  first_candidate df = None -> NoDup (names df) ->
  detect_review_column df
  = Ok (fold_left (best_step df)
          (filter (fun c => text_like c.2 = true) (columns df)) (None, fzero)).1.
Proof.
  unfold first_candidate, detect_review_column. intros Hc Hnd.
  destruct (filter _ (names df)); [|done].
  unfold names at 1. by rewrite text_cols_columns.
Qed.

Lemma best_of_names df k : best_of df (Some k) -> k ∈ names df.
Proof.
  intros (s & pre & post & E & _).
  assert (Hin : (k, s) ∈ filter (fun c => text_like c.2 = true) (columns df)).
  { rewrite E. apply elem_of_app. right. apply list_elem_of_here. }
  apply list_elem_of_filter in Hin as [_ Hin].
  apply list_elem_of_fmap. by exists (k, s).
Qed.

Lemma detect_review_column_names df :
  NoDup (names df) ->
  exists r, detect_review_column df = Ok r /\
            forall c, r = Some c -> c ∈ names df.
Proof.
  intros Hnd. destruct (first_candidate df) as [c|] eqn:E.
  - exists (Some c). split; [by apply detect_review_column_candidate|].
    intros ? [= <-]. unfold first_candidate in E.
    apply head_Some_elem_of in E.
    by apply list_elem_of_filter in E as [_ ?].
  - eexists. split; [by apply detect_review_column_fallback|].
    intros c Hc. apply best_of_names. rewrite <- Hc. apply best_fold_best_of.
Qed.

Lemma getitem_NoDup_names df k :
  NoDup (names df) -> k ∈ names df -> exists s, getitem df k = Ok s.
Proof.
  intros Hnd ([k' s] & -> & Hin)%list_elem_of_fmap.
  exists s. by apply getitem_NoDup.
Qed.

Lemma add_review_text_NoDup df :
  NoDup (names df) -> exists df', add_review_text df = Ok df'.
Proof.
  intros Hnd. unfold add_review_text.
  destruct (detect_review_column_names df Hnd) as (r & -> & Hr). cbn [rbind].
  destruct (has_col (py "review_text") df); [by eexists|].
  destruct r as [c|]; [|by eexists].
  destruct (nonempty c); [|by eexists].
  destruct (getitem_NoDup_names df c Hnd (Hr c eq_refl)) as (s & ->).
  by eexists.
Qed.

(** A table without values in its text-like columns, such as a table
    without rows, has no column the fallback can return. *)
Lemma detect_review_column_no_values df :
  first_candidate df = None -> NoDup (names df) ->
  (forall c, c ∈ columns df -> dropna (values c.2) = []) ->
  detect_review_column df = Ok None.
Proof.
  intros Hc Hnd Hall. rewrite detect_review_column_fallback by done.
  pose proof (best_fold_best_of df) as H.
  destruct (fold_left _ _ _).1 as [k|]; [|done]. exfalso.
  destruct H as (s & pre & post & E & Hpos & _).
  assert (Hin : (k, s) ∈ filter (fun c => text_like c.2 = true) (columns df)).
  { rewrite E. apply elem_of_app. right. apply list_elem_of_here. }
  apply list_elem_of_filter in Hin as [_ Hin].
  apply Hall in Hin. cbn [snd] in Hin.
  unfold score in Hpos. rewrite Hin in Hpos.
  change (take 200 []) with (@nil pystr) in Hpos.
  cbn [avg_len length] in Hpos.
  change (float_of_nat 0) with fzero in Hpos.
  by destruct (float_of_nat (1 `max` nrows df)) as [[|]|[|]| |[|] m e].
Qed.

(** ** The claims *)

(** C4. The three rows ("reseñas_MuseoX", POS), ("reseñas_MuseoX", POS),
    ("reseñas_MuseoX", NEG) are normalised to the location "MuseoX" and
    aggregated into the single aggregate with 3 mentions, 2 positive,
    1 negative, 0 neutral and positive ratio 2/3. *)
Theorem C4_museo_example :
  values (clean_lugar (strs [py "reseñas_MuseoX"])) = [Some (py "MuseoX")] /\
  (df <- normalizer frame_museo ;; getitem df (py "lugar"))
  = Ok (strs (replicate 3 (py "MuseoX"))) /\
  (df <- normalizer frame_museo ;; aggregator df)
  = Ok [mkAgg (py "MuseoX") 3 2 1 0 (Some (2 # 3))] /\
  (c <- core frame_museo ;; Ok (agg c))
  = Ok [mkAgg (py "MuseoX") 3 2 1 0 (Some (2 # 3))].
Proof. repeat split; vm_compute; reflexivity. Qed.

(** C8. The Normalizer raises the validation error exactly when, after the
    renaming, the column "lugar" or the column "sent_label" is absent, and
    the error then ends the whole script. *)
Theorem C8_validation_iff_missing df0 :
  (normalizer df0 = Err ValueError <->
   py "lugar" ∉ names (rename df0) \/ py "sent_label" ∉ names (rename df0))
  /\ (normalizer df0 = Err ValueError ->
      core df0 = Err ValueError /\ pipeline df0 = Err ValueError).
Proof.
  split.
  - unfold normalizer.
    destruct (has_col (py "lugar") (rename df0)) eqn:Hl;
      destruct (has_col (py "sent_label") (rename df0)) eqn:Hs; simpl.
    + apply has_col_true in Hl, Hs. split; [|tauto].
      intros H. exfalso.
      destruct (getitem (rename df0) (py "lugar")) as [l|e] eqn:El; simpl in H.
      * destruct (has_col (py "topic") _); [|discriminate].
        destruct (getitem _ (py "topic")) as [t|e] eqn:Et; simpl in H;
          [discriminate|].
        injection H as ->. by apply getitem_not_ValueError in Et.
      * injection H as ->. by apply getitem_not_ValueError in El.
    + apply has_col_false in Hs. tauto.
    + apply has_col_false in Hl. tauto.
    + apply has_col_false in Hl. tauto.
  - intros H. unfold pipeline, core. by rewrite H.
Qed.




(** C5. Whenever the table has at least 2n distinct normalised locations
    (n the size of the focus, [N] in the script), no location is both in
    the top set and in the bottom set. *)
Theorem C5_top_bottom_disjoint df0 c n :
  core df0 = Ok c ->
  2 * n <= length (input_locations df0) ->
  forall a b, a ∈ top n (agg c) -> b ∈ bottom n (agg c) -> lugar a <> lugar b.
Proof. intros _ _ a b. apply top_bottom_disjoint. Qed.

(** C10. For every table the top set and the bottom set share no location,
    however few locations there are: the bottom rows are drawn from the
    aggregates whose location is not in the top set. With k distinct
    locations in the prepared table, the top set has min(n, k) rows and the
    bottom set min(n, k - min(n, k)). *)
Theorem C10_disjoint_and_sizes df0 c n :
  wf_frame df0 -> core df0 = Ok c ->
  let k := length (distinct_locations (frame c)) in
  (forall a b, a ∈ top n (agg c) -> b ∈ bottom n (agg c) -> lugar a <> lugar b)
  /\ NoDup (lugar <$> agg c)
  /\ length (agg c) = k
  /\ length (top n (agg c)) = n `min` k
  /\ length (bottom n (agg c)) = n `min` (k - n `min` k).
Proof.
  intros Hwf Hc.
  destruct (core_Ok _ _ Hc) as (df & rows & Hn & Hr & Hrows & Hagg & _).
  assert (Hwf' : wf_frame (frame c)).
  { eapply wf_frame_add_review_text; [|exact Hr].
    by eapply wf_frame_normalizer. }
  assert (Hk : length (agg c) = length (distinct_locations (frame c))).
  { rewrite Hagg, length_sort_agg. unfold distinct_locations.
    by rewrite (sentiment_rows_fst _ _ Hwf' Hrows). }
  assert (Hnd : NoDup (lugar <$> agg c)).
  { rewrite Hagg. apply NoDup_lugar_sort_agg. }
  simpl. rewrite <- Hk. repeat split.
  - intros a b. apply top_bottom_disjoint.
  - done.
  - apply length_top.
  - by apply length_bottom.
Qed.

Lemma C5_top_bottom_witness :
  exists c, core (frame_places 24) = Ok c /\
    2 * N <= length (input_locations (frame_places 24)) /\
    forall a b, a ∈ top N (agg c) -> b ∈ bottom N (agg c) -> lugar a <> lugar b.
Proof.
  eexists. split; [vm_compute; reflexivity|]. split; [vm_compute; lia|].
  apply (C5_top_bottom_disjoint (frame_places 24) _ N).
  - vm_compute. reflexivity.
  - vm_compute. lia.
Defined.

Lemma C10_sizes_witness :
  exists c, core (frame_places 3) = Ok c /\
    length (distinct_locations (frame c)) = 3 /\
    (forall a b, a ∈ top 2 (agg c) -> b ∈ bottom 2 (agg c) -> lugar a <> lugar b) /\
    length (top 2 (agg c)) = 2 /\ length (bottom 2 (agg c)) = 1.
Proof.
  eexists. split; [vm_compute; reflexivity|].
  match goal with
  | |- length (distinct_locations (frame ?c)) = 3 /\ _ =>
    assert (Hc : core (frame_places 3) = Ok c) by (vm_compute; reflexivity)
  end.
  split; [vm_compute; reflexivity|].
  assert (Hwf : wf_frame (frame_places 3)) by (repeat constructor).
  destruct (C10_disjoint_and_sizes (frame_places 3) _ 2 Hwf Hc)
    as (Hd & _ & _ & Ht & Hb).
  split; [exact Hd|]. split; [exact Ht|exact Hb].
Defined.

(** C1, as the code has it. In a table with a topic column, a row whose
    trimmed topic is a sentinel is dropped from the table before anything is
    aggregated: it is excluded from the topic aggregation and from the
    sentiment aggregation alike. The location aggregates are those of the
    rows whose topic is not a sentinel. *)
Theorem C1_sentinel_rows_dropped df0 l s t :
  getitem (rename df0) (py "lugar") = Ok l ->
  getitem (rename df0) (py "sent_label") = Ok s ->
  getitem (rename df0) (py "topic") = Ok t ->
  let m := keep_mask t in
  let kept := zip (mask_select m (values (clean_lugar l)))
                  (mask_select m (values s)) in
  exists df, normalizer df0 = Ok df /\
    column_values df (py "topic") = mask_select m (trimmed_topic <$> values t) /\
    (forall x, x ∈ column_values df (py "topic") -> is_sentinel x = false) /\
    aggregator df = Ok (aggregate kept) /\
    (forall c, core df0 = Ok c -> agg c = sort_agg (aggregate kept)).
Proof.
  intros Hl Hs Ht m kept.
  destruct (normalizer_topic_columns _ _ _ _ Hl Hs Ht)
    as (df & Hn & _ & Hdl & Hds & Hdt).
  exists df. split; [done|].
  assert (Htv : column_values df (py "topic")
                = mask_select m (trimmed_topic <$> values t)).
  { unfold column_values. rewrite Hdt. unfold select. cbn [values].
    by rewrite values_trimmed. }
  assert (Hrows : sentiment_rows df = Ok kept).
  { unfold sentiment_rows. by rewrite Hdl, Hds. }
  split; [done|]. split; [|split].
  - intros x. rewrite Htv. unfold m, keep_mask.
    rewrite (list_fmap_compose trimmed_topic (fun c => negb (is_sentinel c))).
    intros Hx%mask_select_kept. by apply negb_true_iff in Hx.
  - unfold aggregator. by rewrite Hrows.
  - intros c Hc.
    destruct (core_Ok _ _ Hc) as (df' & rows & Hn' & Hr & Hrows' & -> & _).
    rewrite Hn in Hn'. injection Hn' as <-.
    unfold sentiment_rows in Hrows'.
    rewrite !(add_review_text_getitem _ _ _ Hr) in Hrows' by done.
    fold (sentiment_rows df) in Hrows'. rewrite Hrows in Hrows'.
    by injection Hrows' as <-.
Qed.

Lemma C1_sentinel_rows_witness :
  exists df, normalizer frame_sentinel = Ok df /\
    column_values df (py "topic") = [Some (py "3")] /\
    (forall x, x ∈ column_values df (py "topic") -> is_sentinel x = false) /\
    aggregator df = Ok [mkAgg (py "A") 1 0 1 0 (Some (0 # 1))] /\
    (forall c, core frame_sentinel = Ok c ->
               agg c = [mkAgg (py "A") 1 0 1 0 (Some (0 # 1))]).
Proof.
  apply (C1_sentinel_rows_dropped frame_sentinel
           (strs [py "A"; py "A"]) (strs [py "POS"; py "NEG"])
           (strs [py "-1"; py "3"])); vm_compute; reflexivity.
Defined.

(** C1, as stated, fails: of two reviews of one place, the one with topic
    "-1" is counted in no aggregate, where the stated reading counts it. *)
Lemma C1_sentinel_counterexample :
  (df <- normalizer frame_sentinel ;; aggregator df)
  = Ok [mkAgg (py "A") 1 0 1 0 (Some (0 # 1))] /\
  claimed_aggregator frame_sentinel
  = Ok [mkAgg (py "A") 2 1 1 0 (Some (1 # 2))] /\
  (df <- normalizer frame_sentinel ;; aggregator df)
  <> claimed_aggregator frame_sentinel.
Proof. repeat split; vm_compute; [reflexivity..|discriminate]. Qed.

(** C2, on the code. Whenever the table has no column named
    "Review_Lematizada", the script does not reach a placeholder: the
    word-cloud step raises [KeyError], although everything before it
    succeeded. *)
Theorem C2_wordcloud_raises_KeyError df0 c :
  core df0 = Ok c ->
  py "Review_Lematizada" ∉ names df0 ->
  pipeline df0 = Err (KeyError (py "Review_Lematizada")).
Proof.
  intros Hc Hn. unfold pipeline, wordcloud_src. rewrite Hc. cbn [rbind].
  rewrite getitem_KeyError; [done|].
  destruct (core_Ok _ _ Hc) as (df & rows & Hnorm & Hr & _).
  intros [Hx|Hx]%(elem_of_names_add_review_text _ _ _ Hr); [|done].
  apply (elem_of_names_normalizer _ _ _ Hnorm) in Hx as [Hx|[Hx|Hx]];
    [|done..].
  apply elem_of_names_rename in Hx as [Hx|Hx]; [done|].
  vm_compute in Hx.
  repeat (apply elem_of_cons in Hx as [Hx|Hx]; [discriminate|]).
  by apply elem_of_nil in Hx.
Qed.

Lemma C2_wordcloud_witness :
  (exists c, core frame_no_review = Ok c) /\
  (py "Review_Lematizada" ∉ names frame_no_review) /\
  pipeline frame_no_review = Err (KeyError (py "Review_Lematizada")).
Proof.
  assert (Hn : py "Review_Lematizada" ∉ names frame_no_review).
  { vm_compute. intros H.
    repeat (apply elem_of_cons in H as [H|H]; [discriminate|]).
    by apply elem_of_nil in H. }
  assert (H : exists c, core frame_no_review = Ok c)
    by (eexists; vm_compute; reflexivity).
  split; [exact H|]. split; [exact Hn|]. destruct H as [c Hc].
  apply (C2_wordcloud_raises_KeyError frame_no_review c Hc Hn).
Defined.

(** C9, on the code. Forty reviews of one place on topic "99", which the
    dictionary does not list: the topic is retained, its description is the
    empty string, and its label is Python's [None], not a label. A listed
    topic gets the label made of its identifier. *)
Theorem C9_unlisted_topic_has_no_label :
  (c <- core frame_topic99 ;; Ok (treemap_df c))
  = Ok [mkTopicRow (py "99") None [] 40] /\
  short_label (py "99") = None /\
  short_label (py "7") = Some (py "Tópico 7").
Proof. repeat split; vm_compute; reflexivity. Qed.

(** The scores are doubles. Both columns of [frame_tie] have the exact
    score 5/3, but 5.0 * (1/3) rounds below (5/3) * 1.0, so the later column
    is returned. *)
Example resolver_rounding :
  detect_review_column frame_tie = Ok (Some (py "b")) /\
  fgt (score frame_tie (strs [py "xx"; py "xx"; py "x"]))
      (score frame_tie (mkSeries true [Some (py "xxxxx"); None; None])) = true.
Proof. split; vm_compute; reflexivity. Qed.

(** C6, as the code has it. The resolver returns the first column whose
    lower-cased name is one of the canonical names. When there is none, it
    scores each text-like column by (average length of its first 200
    non-missing values) x (size of that sample / max(1, row count)),
    computed in double precision, and returns the first column of highest
    score, provided that score is above zero; it returns nothing when no
    text-like column scores above zero. *)
Theorem C6_resolver_first_match_or_best df :
  NoDup (names df) ->
  exists r, detect_review_column df = Ok r /\
    match first_candidate df with
    | Some c => r = Some c
    | None => best_of df r
    end.
Proof.
  intros Hnd. destruct (first_candidate df) as [c|] eqn:E.
  - exists (Some c). split; [by apply detect_review_column_candidate|done].
  - eexists. split; [by apply detect_review_column_fallback|].
    apply best_fold_best_of.
Qed.

Lemma C6_resolver_witness :
  NoDup (names frame_resolver) /\
  exists r, detect_review_column frame_resolver = Ok r /\
    match first_candidate frame_resolver with
    | Some c => r = Some c
    | None => best_of frame_resolver r
    end.
Proof.
  assert (Hnd : NoDup (names frame_resolver)).
  { vm_compute. repeat constructor; intros H;
      repeat (apply elem_of_cons in H as [H|H]; [discriminate|]);
      by apply elem_of_nil in H. }
  split; [exact Hnd|]. exact (C6_resolver_first_match_or_best frame_resolver Hnd).
Defined.

(** C6, as stated, fails. In a table of 400 rows, column [a] holds a
    4-character string in every row and column [b] a 12-character string in
    100 rows. By the stated score [a] has 4 x 1 and [b] 12 x 1/4, yet the
    resolver returns [b]: its second factor is the sample size, at most 200,
    over the row count. *)
Lemma C6_resolver_counterexample :
  detect_review_column frame_resolver = Ok (Some (py "b")) /\
  ~ maximizes_claimed_score frame_resolver (Some (py "b")).
Proof.
  split; [vm_compute; reflexivity|].
  intros (c & s & [= <-] & Hin & _ & Hmax).
  unfold frame_resolver in Hin. cbn [columns] in Hin.
  apply elem_of_cons in Hin as [[=]|Hin].
  apply list_elem_of_singleton in Hin. apply (f_equal snd) in Hin.
  cbn [snd] in Hin. subst s.
  specialize (Hmax (py "a") (strs (replicate 400 (py "xxxx")))).
  assert (Hle : fle (claimed_score frame_resolver
                       (strs (replicate 400 (py "xxxx"))))
                    (claimed_score frame_resolver
                       (mkSeries true (replicate 100 (Some (py "yyyyyyyyyyyy"))
                                       ++ replicate 300 None)))
                = false) by (vm_compute; reflexivity).
  rewrite Hmax in Hle; [discriminate|apply list_elem_of_here|reflexivity].
Qed.

(** C7. When every topic of the table is "-1" after trimming, whatever the
    number of rows, the script runs through the topic summary and the
    summary is empty. *)
Theorem C7_only_sentinel_topics df0 :
  NoDup (names (rename df0)) ->
  py "lugar" ∈ names (rename df0) ->
  py "sent_label" ∈ names (rename df0) ->
  py "topic" ∈ names (rename df0) ->
  (forall x, x ∈ column_values (rename df0) (py "topic") ->
             trimmed_topic x = Some (py "-1")) ->
  exists c, core df0 = Ok c /\ treemap_df c = [] /\ agg c = [].
Proof.
  intros Hnd Hl Hs Ht Hall.
  destruct (getitem_NoDup_names _ _ Hnd Hl) as (l & El).
  destruct (getitem_NoDup_names _ _ Hnd Hs) as (s & Es).
  destruct (getitem_NoDup_names _ _ Hnd Ht) as (t & Et).
  destruct (normalizer_topic_columns _ _ _ _ El Es Et)
    as (df & Hn & Hnames & Hdl & Hds & Hdt).
  assert (Hmask : Forall (fun b => b = false) (keep_mask t)).
  { unfold keep_mask. rewrite Forall_fmap. apply Forall_forall.
    intros x Hx. change (negb (is_sentinel (trimmed_topic x)) = false).
    rewrite Hall; [done|].
    unfold column_values. by rewrite Et. }
  destruct (add_review_text_NoDup df) as (df' & Hr); [by rewrite Hnames|].
  eexists. split; [|split].
  - unfold core. rewrite Hn. cbn [rbind]. rewrite Hr. cbn [rbind].
    unfold aggregator, sentiment_rows, topic_summarizer.
    rewrite !(add_review_text_getitem _ _ _ Hr) by done.
    rewrite Hdl, Hds, Hdt. unfold select. cbn [rbind values].
    rewrite !mask_select_none by done. reflexivity.
  - reflexivity.
  - reflexivity.
Qed.

Lemma C7_only_sentinel_witness :
  exists c, core frame_minus1 = Ok c /\ treemap_df c = [] /\ agg c = [].
Proof.
  apply (C7_only_sentinel_topics frame_minus1).
  - vm_compute. repeat constructor; intros H;
      repeat (apply elem_of_cons in H as [H|H]; [discriminate|]);
      by apply elem_of_nil in H.
  - vm_compute. apply list_elem_of_here.
  - vm_compute. apply list_elem_of_further, list_elem_of_here.
  - vm_compute. do 2 apply list_elem_of_further. apply list_elem_of_here.
  - intros x Hx. vm_compute in Hx.
    repeat (apply elem_of_cons in Hx as [->|Hx]; [vm_compute; reflexivity|]).
    by apply elem_of_nil in Hx.
Defined.

(** * Further properties of the script *)

(** ** Aggregation *)

Lemma sum_list_fmap {A} (f : A -> nat) (l : list A) :
  sum_list (f <$> l) = sum_list_with f l.
Proof. induction l as [|x l IH]; [done|]. cbn. f_equal. exact IH. Qed.

Lemma sum_list_with_ext {A} (f g : A -> nat) (l : list A) :
  (forall x, x ∈ l -> f x = g x) -> sum_list_with f l = sum_list_with g l.
Proof.
  induction l as [|x l IH]; intros H; [done|]. cbn.
  rewrite (H x) by apply list_elem_of_here.
  rewrite IH; [done|]. intros y Hy. by apply H, list_elem_of_further.
Qed.

Lemma sum_list_with_zero {A} (f : A -> nat) (l : list A) :
  (forall x, f x = 0) -> sum_list_with f l = 0.
Proof.
  intros H. induction l as [|x l IH]; [done|]. cbn. by rewrite H, IH.
Qed.

Lemma count_notna_group_cons c lab rows k :
  count_notna (group_labels ((c, lab) :: rows) k)
  = (if decide (c = Some k /\ is_Some lab) then 1 else 0)
    + count_notna (group_labels rows k).
Proof.
  unfold count_notna, group_labels, dropna. rewrite filter_cons. cbn [fst].
  destruct (decide (c = Some k)) as [->|Hc].
  - rewrite fmap_cons. cbn [snd]. destruct lab as [s|].
    + rewrite decide_True by (split; [done|by eexists]). done.
    + rewrite decide_False by (intros [_ [? [=]]]). done.
  - rewrite decide_False by tauto. done.
Qed.

Lemma sum_indicator_NoDup (K : list pystr) k0 :
  NoDup K ->
  sum_list_with (fun k => if decide (k0 = k) then 1 else 0) K
  = if decide (k0 ∈ K) then 1 else 0.
Proof.
  induction 1 as [|k K Hk Hnd IH]; simpl; [done|].
  rewrite IH. destruct (decide (k0 = k)) as [->|Hne].
  - rewrite (decide_False (P := k ∈ K)) by done.
    rewrite decide_True by apply list_elem_of_here. done.
  - destruct (decide (k0 ∈ K)) as [Hin|Hin].
    + rewrite decide_True by by apply list_elem_of_further. done.
    + rewrite decide_False; [done|]. by intros [?|?]%elem_of_cons.
Qed.

Lemma mentions_over_keys (K : list pystr) rows :
  NoDup K -> (forall k, Some k ∈ rows.*1 -> k ∈ K) ->
  sum_list_with (fun k => count_notna (group_labels rows k)) K
  = length (filter counted rows).
Proof.
  intros Hnd. induction rows as [|[c lab] rows IH]; intros Hcov.
  - clear. induction K as [|k K IH]; simpl; [done|]. by rewrite IH.
  - assert (Hstep : forall K',
      sum_list_with (fun k => count_notna (group_labels ((c, lab) :: rows) k)) K'
      = sum_list_with (fun k => if decide (c = Some k /\ is_Some lab)
                                then 1 else 0) K'
        + sum_list_with (fun k => count_notna (group_labels rows k)) K').
    { induction K' as [|k K' IHK]; simpl; [done|].
      rewrite IHK, count_notna_group_cons. lia. }
    rewrite Hstep, IH
      by (intros k Hk; apply Hcov; rewrite fmap_cons; by apply list_elem_of_further).
    rewrite filter_cons. unfold counted at 2. cbn [fst snd].
    destruct c as [k0|]; [destruct lab as [s|]|].
    + rewrite decide_True by (split; by eexists). simpl length.
      replace (sum_list_with _ K) with 1; [done|].
      erewrite (sum_list_with_ext _ (fun k => if decide (k0 = k) then 1 else 0));
        cycle 1.
      { intros k _. destruct (decide (k0 = k)) as [->|Hne].
        - rewrite decide_True; [done|]. split; [done|by eexists].
        - rewrite decide_False; [done|]. intros [[=] _]. done. }
      rewrite sum_indicator_NoDup by done.
      rewrite decide_True; [done|]. apply Hcov. rewrite fmap_cons.
      apply list_elem_of_here.
    + rewrite decide_False by (intros [_ [? [=]]]).
      rewrite sum_list_with_zero; [done|].
      intros k. rewrite decide_False; [done|]. intros [_ [? [=]]].
    + rewrite decide_False by (intros [[? [=]] _]).
      rewrite sum_list_with_zero; [done|].
      intros k. rewrite decide_False; [done|]. intros [[=] _].
Qed.

Lemma Zpos_of_nat_S n : Zpos (Pos.of_nat (S n)) = Z.of_nat (S n).
Proof. rewrite <- positive_nat_Z, Nat2Pos.id by done. done. Qed.

(** X1. In every location aggregate each sub-count is at most the mention
    count; the positive ratio is NaN exactly when the location has no
    counted label, and otherwise it is pos / mentions and lies between 0
    and 1. *)
Theorem X1_pos_ratio_in_unit_interval df aggs a :
  aggregator df = Ok aggs -> a ∈ aggs ->
  pos a <= mentions a /\ neg a <= mentions a /\ neu a <= mentions a /\
  (pos_ratio a = None <-> mentions a = 0) /\
  forall q, pos_ratio a = Some q ->
    (0 <= q)%Q /\ (q <= 1)%Q /\
    (q == inject_Z (Z.of_nat (pos a)) / inject_Z (Z.of_nat (mentions a)))%Q.
Proof.
  unfold aggregator. intros H Ha.
  destruct (sentiment_rows df) as [rows|e]; [|discriminate].
  cbn [rbind] in H. injection H as <-.
  apply elem_of_aggregate in Ha. rewrite Ha. cbn [pos neg neu mentions pos_ratio aggregate_group].
  pose proof (count_split (group_labels rows (lugar a))) as Hs.
  set (m := count_notna (group_labels rows (lugar a))) in *.
  set (p := count_label (py "POS") (group_labels rows (lugar a))) in *.
  repeat split; try lia.
  - destruct m; [done|discriminate].
  - intros ->. done.
  - destruct m as [|m']; [discriminate|]. cbn [ratio] in H. injection H as <-.
    unfold Qle. cbn [Qnum Qden]. lia.
  - destruct m as [|m']; [discriminate|]. cbn [ratio] in H. injection H as <-.
    unfold Qle. cbn [Qnum Qden]. rewrite Zpos_of_nat_S. lia.
  - destruct m as [|m']; [discriminate|]. cbn [ratio] in H. injection H as <-.
    rewrite Qmake_Qdiv, Zpos_of_nat_S. reflexivity.
Qed.

Lemma X1_pos_ratio_witness :
  let a := mkAgg (py "A") 2 1 0 0 (Some (1 # 2)) in
  pos a <= mentions a /\ neg a <= mentions a /\ neu a <= mentions a /\
  (pos_ratio a = None <-> mentions a = 0) /\
  forall q, pos_ratio a = Some q ->
    (0 <= q)%Q /\ (q <= 1)%Q /\
    (q == inject_Z (Z.of_nat (pos a)) / inject_Z (Z.of_nat (mentions a)))%Q.
Proof.
  apply (X1_pos_ratio_in_unit_interval frame_labels
           [mkAgg (py "A") 2 1 0 0 (Some (1 # 2));
            mkAgg (py "B") 1 0 0 1 (Some (0 # 1))]).
  - vm_compute. reflexivity.
  - apply list_elem_of_here.
Defined.

Lemma sum_mentions_aggregate rows :
  sum_list (mentions <$> aggregate rows) = length (filter counted rows).
Proof.
  unfold aggregate. rewrite <- list_fmap_compose, sum_list_fmap.
  rewrite (sum_list_with_ext _ (fun k => count_notna (group_labels rows k)))
    by done.
  rewrite group_keys_perm. apply mentions_over_keys.
  - apply NoDup_remove_dups.
  - intros k Hk. apply elem_of_remove_dups. unfold dropna.
    apply list_elem_of_omap. by exists (Some k).
Qed.

(** X2. The mention counts of all location aggregates add up to the number
    of rows that have both a location and a label: no such row is counted
    twice or left out. *)
Theorem X2_mentions_add_up rows :
  sum_list (mentions <$> aggregate rows) = length (filter counted rows).
Proof. apply sum_mentions_aggregate. Qed.

Lemma length_mask_select_le {A} (m : list bool) (l : list A) :
  length (mask_select m l) <= length l.
Proof.
  revert l. induction m as [|b m IH]; intros [|x l]; simpl; try lia.
  specialize (IH l). destruct b; simpl; lia.
Qed.

Lemma nrows_rename df0 : nrows (rename df0) = nrows df0.
Proof. done. Qed.

Lemma nrows_normalizer_le df0 df :
  normalizer df0 = Ok df -> nrows df <= nrows df0.
Proof.
  intros (l & _ & _ & [(t & _ & ->)|(_ & ->)])%normalizer_Ok.
  - unfold filter_rows. cbn [nrows].
    etransitivity; [apply length_mask_select_le|].
    by rewrite length_replicate, !nrows_setitem, nrows_rename.
  - by rewrite !nrows_setitem, nrows_rename.
Qed.

Lemma nrows_add_review_text df df' :
  add_review_text df = Ok df' -> nrows df' = nrows df.
Proof.
  intros [->|(s & -> & _)]%add_review_text_cases; [done|].
  apply nrows_setitem.
Qed.

Lemma core_frame_facts df0 c :
  wf_frame df0 -> core df0 = Ok c ->
  wf_frame (frame c) /\ nrows (frame c) <= nrows df0.
Proof.
  intros Hwf Hc.
  destruct (core_Ok _ _ Hc) as (df & rows & Hn & Hr & _). split.
  - eapply wf_frame_add_review_text; [|exact Hr]. by eapply wf_frame_normalizer.
  - rewrite (nrows_add_review_text _ _ Hr). by apply nrows_normalizer_le.
Qed.

(** X3. The mentions of all aggregates together never exceed the number of
    reviews the page reports as analysed ([total_reviews], the rows of the
    table as loaded). *)
Theorem X3_mentions_at_most_total_reviews df0 c :
  wf_frame df0 -> core df0 = Ok c ->
  sum_list (mentions <$> agg c) <= total_reviews df0.
Proof.
  intros Hwf Hc. destruct (core_frame_facts _ _ Hwf Hc) as [Hwf' Hle].
  destruct (core_Ok _ _ Hc) as (df & rows & _ & _ & Hrows & -> & _).
  unfold sort_agg. rewrite stable_sort_perm, sum_mentions_aggregate.
  etransitivity; [apply length_filter|].
  rewrite <- (length_fmap fst), (sentiment_rows_fst _ _ Hwf' Hrows).
  unfold total_reviews, column_values.
  destruct (getitem (frame c) (py "lugar")) as [l|e] eqn:El; [|simpl; lia].
  rewrite (wf_frame_getitem _ _ _ Hwf' El). done.
Qed.

Lemma X3_mentions_witness :
  wf_frame frame_sentinel /\
  exists c, core frame_sentinel = Ok c /\
    sum_list (mentions <$> agg c) <= total_reviews frame_sentinel.
Proof.
  assert (Hwf : wf_frame frame_sentinel) by (repeat constructor).
  split; [exact Hwf|].
  assert (H : exists c, core frame_sentinel = Ok c)
    by (eexists; vm_compute; reflexivity).
  destruct H as [c Hc]. exists c. split; [exact Hc|].
  apply (X3_mentions_at_most_total_reviews frame_sentinel c Hwf Hc).
Defined.

Lemma elem_of_focus_agg n agg a : a ∈ focus n agg -> a ∈ agg.
Proof.
  unfold focus. intros [Ha|Ha]%elem_of_app.
  - by eapply elem_of_take_elem.
  - apply elem_of_bottom_resto in Ha. unfold resto in Ha.
    by apply list_elem_of_filter in Ha as [_ ?].
Qed.

(** X4. Every location of the focus set (top or bottom, for any size n) is
    the location of at least one row of the prepared table. *)
Theorem X4_focus_locations_from_table df0 c n a :
  core df0 = Ok c -> a ∈ focus n (agg c) ->
  Some (lugar a) ∈ column_values (frame c) (py "lugar").
Proof.
  intros Hc Ha%elem_of_focus_agg.
  destruct (core_Ok _ _ Hc) as (df & rows & _ & _ & Hrows & Hagg & _).
  rewrite Hagg in Ha. unfold sort_agg in Ha. rewrite stable_sort_perm in Ha.
  apply (list_elem_of_fmap_2 lugar) in Ha.
  rewrite lugar_aggregate, group_keys_perm in Ha.
  rewrite elem_of_remove_dups in Ha. unfold dropna in Ha.
  apply list_elem_of_omap in Ha as (x & Hx & Heq). cbn in Heq. subst x.
  apply list_elem_of_fmap in Hx as ([x y] & Hxy & Hin). cbn in Hxy. subst x.
  unfold sentiment_rows in Hrows. unfold column_values.
  destruct (getitem (frame c) (py "lugar")) as [l|e]; [|discriminate].
  cbn [rbind] in Hrows.
  destruct (getitem (frame c) (py "sent_label")) as [s|e]; [|discriminate].
  cbn [rbind] in Hrows. injection Hrows as <-.
  by eapply elem_of_zip_l.
Qed.

Lemma X4_focus_locations_witness :
  exists c, core frame_sentinel = Ok c /\
    Some (py "A") ∈ column_values (frame c) (py "lugar").
Proof.
  eexists. split; [vm_compute; reflexivity|].
  match goal with
  | |- _ ∈ column_values (frame ?c) _ =>
    assert (Hc : core frame_sentinel = Ok c) by (vm_compute; reflexivity)
  end.
  apply (X4_focus_locations_from_table frame_sentinel _ N
           (mkAgg (py "A") 1 0 1 0 (Some (0 # 1))) Hc).
  vm_compute. apply list_elem_of_here.
Defined.

(** ** Normalised locations *)

Lemma lstrip_elem s x : x ∈ lstrip s -> x ∈ s.
Proof.
  induction s as [|c s IH]; cbn [lstrip]; [done|].
  destruct (isspace c); [|done]. intros ?%IH. by apply list_elem_of_further.
Qed.

Lemma lstrip_head s c : head (lstrip s) = Some c -> isspace c = false.
Proof.
  induction s as [|a s IH]; cbn [lstrip]; [done|].
  destruct (isspace a) eqn:E; [done|]. by intros [= <-].
Qed.

Lemma lstrip_id s :
  (forall c, head s = Some c -> isspace c = false) -> lstrip s = s.
Proof.
  destruct s as [|a s]; [done|]. intros H. cbn [lstrip].
  by rewrite (H a).
Qed.

Lemma lstrip_snoc u c :
  isspace c = false -> exists v, lstrip (u ++ [c]) = v ++ [c].
Proof.
  intros Hc. induction u as [|a u IH].
  - exists []. cbn. by rewrite Hc.
  - rewrite <- app_comm_cons. cbn [lstrip]. destruct (isspace a); [done|].
    by exists (a :: u).
Qed.

Lemma rstrip_elem s x : x ∈ rstrip s -> x ∈ s.
Proof.
  unfold rstrip. rewrite elem_of_reverse. intros ?%lstrip_elem.
  by apply elem_of_reverse.
Qed.

Lemma rstrip_last s c : last (rstrip s) = Some c -> isspace c = false.
Proof.
  unfold rstrip. rewrite last_reverse. apply lstrip_head.
Qed.

Lemma rstrip_head s c :
  (forall a, head s = Some a -> isspace a = false) ->
  head (rstrip s) = Some c -> isspace c = false.
Proof.
  destruct s as [|a s]; [done|]. intros H. specialize (H a eq_refl).
  unfold rstrip. rewrite reverse_cons.
  destruct (lstrip_snoc (reverse s) a H) as (v & ->).
  rewrite reverse_snoc. by intros [= <-].
Qed.

Lemma rstrip_id s :
  (forall c, last s = Some c -> isspace c = false) -> rstrip s = s.
Proof.
  intros H. unfold rstrip. rewrite lstrip_id, reverse_involutive; [done|].
  intros c. rewrite head_reverse. apply H.
Qed.

Lemma strip_elem s x : x ∈ strip s -> x ∈ s.
Proof. unfold strip. by intros ?%rstrip_elem%lstrip_elem. Qed.

Lemma strip_trimmed s : trimmed (strip s).
Proof.
  unfold strip. split.
  - intros c. apply rstrip_head. apply lstrip_head.
  - apply rstrip_last.
Qed.

Lemma strip_id s : trimmed s -> strip s = s.
Proof.
  intros [Hh Hl]. unfold strip. rewrite (lstrip_id s) by done.
  by apply rstrip_id.
Qed.

Lemma replace_char_absent a b s : a <> b -> a ∉ replace_char a b s.
Proof.
  intros Hab (c & Hc & _)%list_elem_of_fmap.
  destruct (N.eqb_spec c a); congruence.
Qed.

Lemma replace_char_id a b s : a ∉ s -> replace_char a b s = s.
Proof.
  intros Ha. unfold replace_char.
  rewrite <- (list_fmap_id s) at 2. apply list_fmap_ext.
  intros i c Hc. destruct (N.eqb_spec c a) as [->|]; [|done].
  exfalso. apply Ha. by eapply list_elem_of_lookup_2.
Qed.

Lemma strip_prefix_elem p s t x :
  strip_prefix p s = Some t -> x ∈ p -> x ∈ s.
Proof.
  revert s. induction p as [|a p IH]; intros s H Hx.
  - by apply elem_of_nil in Hx.
  - destruct s as [|b s]; [done|]. cbn [strip_prefix] in H.
    destruct (N.eqb_spec a b) as [->|]; [|done].
    apply elem_of_cons in Hx as [->|Hx]; [apply list_elem_of_here|].
    apply list_elem_of_further. by eapply IH.
Qed.

Lemma clean_location_facts c :
  (95%N ∉ clean_location c) /\ trimmed (clean_location c) /\
  clean_location (Some (clean_location c)) = clean_location c.
Proof.
  assert (Hu : 95%N ∉ clean_location c).
  { unfold clean_location. intros H%strip_elem. revert H.
    by apply replace_char_absent. }
  split; [done|]. split; [apply strip_trimmed|].
  unfold clean_location at 1.
  change (str_of_cell (Some (clean_location c))) with (clean_location c).
  assert (Hp : sub_prefix (py "reseñas_") (clean_location c) = clean_location c).
  { unfold sub_prefix.
    destruct (strip_prefix _ _) as [t|] eqn:E; [|done]. exfalso.
    apply Hu. eapply strip_prefix_elem; [exact E|].
    vm_compute. do 7 apply list_elem_of_further. apply list_elem_of_here. }
  rewrite Hp, replace_char_id by done.
  apply strip_id, strip_trimmed.
Qed.

Lemma values_clean_lugar l :
  values (clean_lugar l) = (fun c => Some (clean_location c)) <$> values l.
Proof.
  unfold clean_lugar, str_map, astype_str. cbn [values].
  rewrite <- !list_fmap_compose. by apply list_fmap_ext.
Qed.

Lemma mask_select_elem {A} (m : list bool) (l : list A) x :
  x ∈ mask_select m l -> x ∈ l.
Proof.
  revert l. induction m as [|b m IH]; intros [|y l]; simpl;
    try (by intros ?%elem_of_nil).
  destruct b.
  - intros [->|?]%elem_of_cons; [apply list_elem_of_here|].
    apply list_elem_of_further. by apply IH.
  - intros ?%IH. by apply list_elem_of_further.
Qed.

Lemma normalizer_lugar_values df0 df x :
  normalizer df0 = Ok df -> x ∈ column_values df (py "lugar") ->
  exists c, x = Some (clean_location c).
Proof.
  intros (l & Hl & _ & H)%normalizer_Ok. unfold column_values.
  assert (H1 : forall s, getitem (setitem (setitem (rename df0) (py "lugar")
                                     (clean_lugar l)) (py "topic") s)
                           (py "lugar") = Ok (clean_lugar l)).
  { intros s. rewrite getitem_setitem_ne by done.
    by rewrite (getitem_setitem_eq _ _ _ _ Hl). }
  destruct H as [(t & _ & ->)|(_ & ->)].
  - rewrite getitem_filter_rows, H1. cbn [rbind select values].
    intros Hx%mask_select_elem. rewrite values_clean_lugar in Hx.
    apply list_elem_of_fmap in Hx as (c & -> & _). by exists c.
  - rewrite H1, values_clean_lugar.
    intros (c & -> & _)%list_elem_of_fmap. by exists c.
Qed.

(** X5. Every location the Normalizer leaves in the table is a string
    without underscore that neither starts nor ends with white space, and
    normalising it again changes nothing. *)
Theorem X5_normalised_locations df0 df x :
  normalizer df0 = Ok df -> x ∈ column_values df (py "lugar") ->
  exists s, x = Some s /\ (95%N ∉ s) /\ trimmed s /\ clean_location (Some s) = s.
Proof.
  intros Hn Hx. destruct (normalizer_lugar_values _ _ _ Hn Hx) as (c & ->).
  exists (clean_location c). split; [done|]. apply clean_location_facts.
Qed.

Lemma X5_normalised_locations_witness :
  exists s, Some (py "MuseoX") = Some s /\
    (95%N ∉ s) /\ trimmed s /\ clean_location (Some s) = s.
Proof.
  apply (X5_normalised_locations frame_museo
           (mkFrame
              [(py "lugar", strs (replicate 3 (py "MuseoX")));
               (py "sent_label", strs [py "POS"; py "POS"; py "NEG"]);
               (py "topic", mkSeries true (replicate 3 None))] 3)).
  - vm_compute. reflexivity.
  - vm_compute. apply list_elem_of_here.
Defined.

(** ** Ranking *)

Lemma insert_sorted_elem {A} (le : A -> A -> bool) x l y :
  y ∈ insert_sorted le x l -> y = x \/ y ∈ l.
Proof.
  intros H. rewrite insert_sorted_perm in H.
  by apply elem_of_cons in H.
Qed.

(** Insertion into a sorted list keeps it sorted, for a total and
    transitive order. *)
Lemma insert_sorted_sorted {A} (le : A -> A -> bool) x l :
  (forall a b, le a b = true \/ le b a = true) ->
  (forall a b c, le a b = true -> le b c = true -> le a c = true) ->
  StronglySorted (fun a b => le a b = true) l ->
  StronglySorted (fun a b => le a b = true) (insert_sorted le x l).
Proof.
  intros Htot Htr. induction 1 as [|y l Hs IH Hy]; cbn [insert_sorted].
  - repeat constructor.
  - destruct (le x y) eqn:E.
    + constructor; [by constructor|].
      constructor; [done|].
      eapply Forall_impl; [exact Hy|]. intros z Hz. by eapply Htr.
    + constructor; [exact IH|].
      apply Forall_forall. intros z [->|Hz]%insert_sorted_elem.
      * destruct (Htot x y); congruence.
      * rewrite Forall_forall in Hy. by apply Hy.
Qed.

Lemma stable_sort_sorted {A} (le : A -> A -> bool) l :
  (forall a b, le a b = true \/ le b a = true) ->
  (forall a b c, le a b = true -> le b c = true -> le a c = true) ->
  StronglySorted (fun a b => le a b = true) (stable_sort le l).
Proof.
  intros Htot Htr. induction l as [|x l IH]; cbn; [constructor|].
  by apply insert_sorted_sorted.
Qed.

Lemma sorted_take_drop {A} (le : A -> A -> bool) n l a b :
  StronglySorted (fun a b => le a b = true) l ->
  a ∈ take n l -> b ∈ drop n l -> le a b = true.
Proof.
  intros Hs Ha Hb. rewrite <- (take_drop n l) in Hs.
  by eapply (StronglySorted_app_1_elem_of _ _ _ _ _ Hs).
Qed.

Ltac order_facts :=
  repeat match goal with
  | H : Qeq_bool _ _ = true |- _ => apply Qeq_bool_iff in H
  | H : Qeq_bool _ _ = false |- _ => apply Qeq_bool_neq in H
  | H : Qle_bool _ _ = true |- _ => apply Qle_bool_iff in H
  | H : (_ <=? _) = true |- _ => apply Nat.leb_le in H
  end.

Ltac order_goal :=
  first [ apply Qle_bool_iff; lra
        | apply Nat.leb_le; lia
        | exfalso; lra
        | match goal with H : ~ (_ == _)%Q |- _ => exfalso; apply H; lra end ].

Lemma Qle_bool_total x y : Qle_bool x y = true \/ Qle_bool y x = true.
Proof.
  destruct (Qlt_le_dec x y) as [H|H].
  - left. apply Qle_bool_iff. lra.
  - right. by apply Qle_bool_iff.
Qed.



Lemma asc_le_total a b : asc_le a b = true \/ asc_le b a = true.
Proof.
  unfold asc_le.
  destruct (pos_ratio a) as [x|], (pos_ratio b) as [y|]; auto.
  apply Qle_bool_total.
Qed.

Lemma asc_le_trans a b c :
  asc_le a b = true -> asc_le b c = true -> asc_le a c = true.
Proof.
  unfold asc_le.
  destruct (pos_ratio a) as [x|], (pos_ratio b) as [y|],
           (pos_ratio c) as [z|]; try done.
  intros H1 H2. order_facts. order_goal.
Qed.




(** X7. The bottom set holds the lowest ratios of the remainder: a place of
    the bottom set has a positive ratio no higher than that of any place of
    the remainder left out of it, and a place without ratio is in the
    bottom set only if the places left out have none either. *)
Theorem X7_bottom_ranks_last n aggs b r :
  b ∈ bottom n aggs -> r ∈ resto n aggs -> r ∉ bottom n aggs ->
  (pos_ratio b = None -> pos_ratio r = None) /\
  forall x y, pos_ratio b = Some x -> pos_ratio r = Some y -> (x <= y)%Q.
Proof.
  unfold bottom. intros Hb Hr Hn.
  assert (Hd : r ∈ drop n (stable_sort asc_le (resto n aggs))).
  { rewrite <- (stable_sort_perm asc_le) in Hr.
    rewrite <- (take_drop n (stable_sort asc_le (resto n aggs))) in Hr.
    by apply elem_of_app in Hr as [?|?]. }
  assert (H : asc_le b r = true).
  { eapply sorted_take_drop; [|exact Hb|exact Hd].
    apply stable_sort_sorted; [apply asc_le_total|apply asc_le_trans]. }
  unfold asc_le in H.
  destruct (pos_ratio b) as [x|], (pos_ratio r) as [y|]; try done.
  split; [done|]. intros ? ? [= <-] [= <-]. by apply Qle_bool_iff.
Qed.

Lemma X7_bottom_ranks_witness :
  let aggs := [mkAgg [65%N] 2 2 0 0 (Some (2 # 2));
               mkAgg [66%N] 2 1 1 0 (Some (1 # 2));
               mkAgg [67%N] 2 0 2 0 (Some (0 # 2))] in
  let b := mkAgg [67%N] 2 0 2 0 (Some (0 # 2)) in
  let r := mkAgg [66%N] 2 1 1 0 (Some (1 # 2)) in
  (pos_ratio b = None -> pos_ratio r = None) /\
  forall x y, pos_ratio b = Some x -> pos_ratio r = Some y -> (x <= y)%Q.
Proof.
  apply (X7_bottom_ranks_last 1
           [mkAgg [65%N] 2 2 0 0 (Some (2 # 2));
            mkAgg [66%N] 2 1 1 0 (Some (1 # 2));
            mkAgg [67%N] 2 0 2 0 (Some (0 # 2))]).
  - vm_compute. apply list_elem_of_here.
  - vm_compute. apply list_elem_of_here.
  - vm_compute. intros H. apply list_elem_of_singleton in H. discriminate.
Defined.

Lemma NoDup_lugar_focus n aggs :
  NoDup (lugar <$> aggs) -> NoDup (lugar <$> focus n aggs).
Proof.
  intros Hnd. unfold focus. rewrite fmap_app. apply NoDup_app.
  assert (Hsub : forall k (l : list Agg), NoDup (lugar <$> l) ->
                   NoDup (lugar <$> take k l)).
  { intros k l H. rewrite <- (take_drop k l), fmap_app in H.
    by apply NoDup_app in H as [? _]. }
  split; [by apply Hsub|]. split.
  - intros k (a & -> & Ha)%list_elem_of_fmap (b & Hk & Hb)%list_elem_of_fmap.
    exact (top_bottom_disjoint n aggs a b Ha Hb Hk).
  - unfold bottom. apply Hsub. rewrite stable_sort_perm.
    rewrite resto_drop by done.
    rewrite <- (take_drop n aggs), fmap_app in Hnd.
    by apply NoDup_app in Hnd as (_ & _ & ?).
Qed.

(** X8. The focus set lists no place twice, whatever n, and the figure the
    page shows as places in focus, [len(focus)], is min(2n, k) for k
    distinct locations in the prepared table. *)
Theorem X8_focus_distinct_and_size df0 c n :
  wf_frame df0 -> core df0 = Ok c ->
  NoDup (lugar <$> focus n (agg c)) /\
  length (focus n (agg c))
  = (2 * n) `min` length (distinct_locations (frame c)).
Proof.
  intros Hwf Hc. destruct (core_frame_facts _ _ Hwf Hc) as [Hwf' _].
  destruct (core_Ok _ _ Hc) as (df & rows & _ & _ & Hrows & Hagg & _).
  assert (Hnd : NoDup (lugar <$> agg c))
    by (rewrite Hagg; apply NoDup_lugar_sort_agg).
  split; [by apply NoDup_lugar_focus|].
  unfold focus. rewrite length_app, length_top, length_bottom by done.
  unfold distinct_locations.
  rewrite <- (sentiment_rows_fst _ _ Hwf' Hrows), <- length_sort_agg, <- Hagg.
  lia.
Qed.

Lemma X8_focus_witness :
  wf_frame (frame_places 3) /\
  exists c, core (frame_places 3) = Ok c /\
    NoDup (lugar <$> focus 2 (agg c)) /\
    length (focus 2 (agg c))
    = (2 * 2) `min` length (distinct_locations (frame c)).
Proof.
  assert (Hwf : wf_frame (frame_places 3)) by (repeat constructor).
  split; [exact Hwf|].
  assert (H : exists c, core (frame_places 3) = Ok c)
    by (eexists; vm_compute; reflexivity).
  destruct H as [c Hc]. exists c. split; [exact Hc|].
  apply (X8_focus_distinct_and_size (frame_places 3) c 2 Hwf Hc).
Defined.

(** ** Renaming *)

Lemma present_renames_lookup df c :
  c ∈ names df -> present_renames df !! c = rename_map !! c.
Proof.
  intros Hc. unfold present_renames.
  destruct (rename_map !! c) as [v|] eqn:E.
  - by apply map_lookup_filter_Some_2.
  - apply map_lookup_filter_None_2. by left.
Qed.

Lemma rename_eq df : rename df = rename_columns rename_map df.
Proof.
  unfold rename, rename_columns. f_equal. apply list_fmap_ext.
  intros i [k s] Hi. cbn [fst snd]. rewrite present_renames_lookup; [done|].
  apply list_elem_of_fmap. exists (k, s). split; [done|].
  by eapply list_elem_of_lookup_2.
Qed.

Lemma rename_map_target_not_key k v :
  rename_map !! k = Some v -> rename_map !! v = None.
Proof.
  intros H%rename_map_targets.
  repeat (apply elem_of_cons in H as [->|H]; [by vm_compute|]).
  by apply elem_of_nil in H.
Qed.

Lemma rename_name_idem k :
  default (default k (rename_map !! k))
          (rename_map !! default k (rename_map !! k))
  = default k (rename_map !! k).
Proof.
  destruct (rename_map !! k) as [v|] eqn:E.
  - change (default k (Some v)) with v.
    by rewrite (rename_map_target_not_key _ _ E).
  - change (default k None) with k. by rewrite E.
Qed.

(** X9. Renaming maps each column name through the fixed table (Lugar,
    SentLabel, SentScore, Topic, Review, review) and leaves every other name
    as it is; the test [k in df.columns] of the comprehension changes
    nothing. The columns keep their order and their data, and renaming a
    renamed table changes nothing. *)
Theorem X9_rename_names_only df :
  names (rename df) = (fun c => default c (rename_map !! c)) <$> names df /\
  (columns (rename df)).*2 = (columns df).*2 /\
  nrows (rename df) = nrows df /\
  rename (rename df) = rename df.
Proof.
  rewrite !rename_eq. unfold rename_columns, names. cbn [columns nrows].
  repeat split.
  - rewrite <- !list_fmap_compose. by apply list_fmap_ext.
  - rewrite <- list_fmap_compose. by apply list_fmap_ext.
  - f_equal. rewrite <- list_fmap_compose. apply list_fmap_ext.
    intros i [k s] _. cbn. by rewrite rename_name_idem.
Qed.

(** ** When the script runs through *)

Lemma getitem_setitem_new df k s :
  k ∉ names df -> getitem (setitem df k s) k = Ok s.
Proof.
  intros H. pose proof (getitem_KeyError _ _ H) as HK.
  unfold setitem. apply has_col_false in H as ->.
  unfold getitem in *. cbn [columns]. rewrite filter_app.
  destruct (filter _ (columns df)) as [|c [|? ?]]; try discriminate.
  rewrite filter_cons, decide_True by done. done.
Qed.

Lemma any_notna_replicate_None n : any_notna (replicate n None) = false.
Proof.
  unfold any_notna. apply bool_decide_eq_false.
  intros (x & Hx & Hs)%Exists_exists.
  apply elem_of_replicate in Hx as [-> _]. by destruct Hs.
Qed.

Lemma normalizer_no_topic df0 l :
  getitem (rename df0) (py "lugar") = Ok l ->
  py "sent_label" ∈ names (rename df0) ->
  py "topic" ∉ names (rename df0) ->
  normalizer df0
  = Ok (setitem (setitem (rename df0) (py "lugar") (clean_lugar l))
          (py "topic") (mkSeries true (replicate (nrows df0) None))).
Proof.
  intros Hl Hs Ht. unfold normalizer.
  pose proof (getitem_Ok_names _ _ _ Hl) as Hl'.
  apply has_col_true in Hl' as ->. apply has_col_true in Hs as ->.
  cbn [negb orb]. rewrite Hl. cbn [rbind].
  assert (Hh : has_col (py "topic")
                 (setitem (rename df0) (py "lugar") (clean_lugar l)) = false).
  { apply has_col_false. rewrite elem_of_names_setitem. by intros [?|?]. }
  rewrite Hh. by rewrite nrows_setitem.
Qed.

Lemma add_review_text_names df df' :
  add_review_text df = Ok df' ->
  names df' = names df \/
  ((py "review_text" ∉ names df) /\
   names df' = names df ++ [py "review_text"]).
Proof.
  unfold add_review_text.
  destruct (detect_review_column df) as [r|e]; [|done]. cbn [rbind].
  destruct (has_col (py "review_text") df) eqn:Hh; [intros [= <-]; by left|].
  apply has_col_false in Hh. intros H. right. split; [done|].
  destruct r as [c|]; [destruct (nonempty c)|].
  - destruct (getitem df c) as [s|e]; [|done]. cbn [rbind] in H.
    injection H as <-. by apply names_setitem_absent.
  - injection H as <-. by apply names_setitem_absent.
  - injection H as <-. by apply names_setitem_absent.
Qed.

Lemma NoDup_names_add_review_text df df' :
  NoDup (names df) -> add_review_text df = Ok df' -> NoDup (names df').
Proof.
  intros Hnd [->|[Hn ->]]%add_review_text_names; [done|].
  apply NoDup_app. split; [done|]. split; [|apply NoDup_singleton].
  intros x Hx ->%list_elem_of_singleton. done.
Qed.

Lemma elem_of_names_add_review_text_2 df df' x :
  add_review_text df = Ok df' -> x ∈ names df -> x ∈ names df'.
Proof.
  intros [->|[_ ->]]%add_review_text_names Hx; [done|].
  apply elem_of_app. by left.
Qed.

(** With distinct column names and the two mandatory columns, the
    Normalizer returns a frame with distinct names that has a topic
    column. *)
Lemma normalizer_succeeds df0 :
  NoDup (names (rename df0)) ->
  py "lugar" ∈ names (rename df0) ->
  py "sent_label" ∈ names (rename df0) ->
  exists df, normalizer df0 = Ok df /\ NoDup (names df) /\
    (forall k, k ∈ names (rename df0) -> k ∈ names df) /\
    py "topic" ∈ names df.
Proof.
  intros Hnd Hl Hs.
  destruct (getitem_NoDup_names _ _ Hnd Hl) as (l & El).
  destruct (getitem_NoDup_names _ _ Hnd Hs) as (s & Es).
  destruct (decide (py "topic" ∈ names (rename df0))) as [Ht|Ht].
  - destruct (getitem_NoDup_names _ _ Hnd Ht) as (t & Et).
    destruct (normalizer_topic_columns _ _ _ _ El Es Et)
      as (df & Hn & Hnames & _).
    exists df. rewrite Hnames. by repeat split.
  - eexists. split; [by apply normalizer_no_topic|].
    rewrite names_setitem_absent
      by (rewrite elem_of_names_setitem; by intros [?|?]).
    rewrite names_setitem_present by done. repeat split.
    + apply NoDup_app. split; [done|]. split; [|apply NoDup_singleton].
      intros x Hx ->%list_elem_of_singleton. done.
    + intros k Hk. apply elem_of_app. by left.
    + apply elem_of_app. right. apply list_elem_of_here.
Qed.

Lemma topic_summarizer_Ok df foc t l :
  getitem df (py "topic") = Ok t -> getitem df (py "lugar") = Ok l ->
  exists r, topic_summarizer df foc = Ok r.
Proof.
  intros Ht Hl. unfold topic_summarizer. rewrite Ht. cbn [rbind].
  destruct (any_notna (values t)); [|by eexists].
  rewrite Hl. cbn [rbind]. by eexists.
Qed.

Lemma core_succeeds df0 :
  NoDup (names (rename df0)) ->
  py "lugar" ∈ names (rename df0) ->
  py "sent_label" ∈ names (rename df0) ->
  exists c, core df0 = Ok c /\ NoDup (names (frame c)) /\
    (forall k, k ∈ names (rename df0) -> k ∈ names (frame c)) /\
    py "topic" ∈ names (frame c).
Proof.
  intros Hnd Hl Hs.
  destruct (normalizer_succeeds _ Hnd Hl Hs) as (df & Hn & Hnd1 & Hsub & Ht).
  destruct (add_review_text_NoDup df Hnd1) as (df' & Hr).
  pose proof (NoDup_names_add_review_text _ _ Hnd1 Hr) as Hnd2.
  assert (Hsub2 : forall k, k ∈ names (rename df0) -> k ∈ names df').
  { intros k Hk. eapply elem_of_names_add_review_text_2; eauto. }
  assert (Ht2 : py "topic" ∈ names df')
    by by eapply elem_of_names_add_review_text_2.
  destruct (getitem_NoDup_names _ _ Hnd2 (Hsub2 _ Hl)) as (l & El).
  destruct (getitem_NoDup_names _ _ Hnd2 (Hsub2 _ Hs)) as (s & Es).
  destruct (getitem_NoDup_names _ _ Hnd2 Ht2) as (t & Et).
  destruct (topic_summarizer_Ok df'
              (focus N (sort_agg (aggregate (zip (values l) (values s)))))
              t l Et El) as (r & Hts).
  exists (mkCore df' (sort_agg (aggregate (zip (values l) (values s)))) r).
  split; [|by repeat split].
  unfold core. rewrite Hn. cbn [rbind]. rewrite Hr. cbn [rbind].
  unfold aggregator, sentiment_rows. rewrite El, Es. cbn [rbind].
  by rewrite Hts.
Qed.

(** X10. Apart from the validation error, lines 106-185 cannot fail on a
    table whose column names stay distinct under renaming: with the two
    mandatory columns present they run through, with or without a topic
    column and for any number of rows. *)
Theorem X10_core_runs_through df0 :
  NoDup (names (rename df0)) ->
  py "lugar" ∈ names (rename df0) ->
  py "sent_label" ∈ names (rename df0) ->
  exists c, core df0 = Ok c.
Proof.
  intros Hnd Hl Hs.
  destruct (core_succeeds _ Hnd Hl Hs) as (c & Hc & _). by exists c.
Qed.

Lemma NoDup_names_frame_no_review : NoDup (names (rename frame_no_review)).
Proof.
  vm_compute. repeat constructor; intros H;
    repeat (apply elem_of_cons in H as [H|H]; [discriminate|]);
    by apply elem_of_nil in H.
Qed.

Lemma X10_core_runs_witness : exists c, core frame_no_review = Ok c.
Proof.
  apply (X10_core_runs_through frame_no_review NoDup_names_frame_no_review).
  - vm_compute. apply list_elem_of_here.
  - vm_compute. apply list_elem_of_further, list_elem_of_here.
Defined.

(** X11. A table without topic column loses no row: every review is
    aggregated, the frame keeps the row count of the table as loaded, and
    the topic summary is empty. *)
Theorem X11_no_topic_column df0 l s :
  NoDup (names (rename df0)) ->
  getitem (rename df0) (py "lugar") = Ok l ->
  getitem (rename df0) (py "sent_label") = Ok s ->
  py "topic" ∉ names (rename df0) ->
  exists c, core df0 = Ok c /\
    agg c = sort_agg (aggregate (zip (values (clean_lugar l)) (values s))) /\
    nrows (frame c) = nrows df0 /\
    treemap_df c = [].
Proof.
  intros Hnd Hl Hs Ht.
  pose proof (getitem_Ok_names _ _ _ Hl) as Hl'.
  pose proof (getitem_Ok_names _ _ _ Hs) as Hs'.
  pose proof (normalizer_no_topic _ _ Hl Hs' Ht) as Hn.
  destruct (normalizer_succeeds _ Hnd Hl' Hs') as (df & Hn' & Hnd1 & _).
  rewrite Hn in Hn'. injection Hn' as Hdf.
  destruct (add_review_text_NoDup df Hnd1) as (df' & Hr).
  assert (El : getitem df (py "lugar") = Ok (clean_lugar l)).
  { rewrite <- Hdf, getitem_setitem_ne by done.
    by rewrite (getitem_setitem_eq _ _ _ _ Hl). }
  assert (Es : getitem df (py "sent_label") = Ok s).
  { by rewrite <- Hdf, !getitem_setitem_ne. }
  assert (Et : getitem df (py "topic")
               = Ok (mkSeries true (replicate (nrows df0) None))).
  { rewrite <- Hdf. apply getitem_setitem_new.
    rewrite elem_of_names_setitem. by intros [?|?]. }
  eexists. split; [|split; [|split]].
  - unfold core. rewrite Hn, Hdf. cbn [rbind]. rewrite Hr. cbn [rbind].
    unfold aggregator, sentiment_rows, topic_summarizer.
    rewrite !(add_review_text_getitem _ _ _ Hr) by done.
    rewrite El, Es, Et. cbn [rbind values].
    rewrite any_notna_replicate_None. reflexivity.
  - reflexivity.
  - cbn [frame]. rewrite (nrows_add_review_text _ _ Hr), <- Hdf.
    by rewrite !nrows_setitem.
  - reflexivity.
Qed.

Lemma X11_no_topic_witness :
  exists c, core frame_museo = Ok c /\
    agg c = sort_agg (aggregate
              (zip (values (clean_lugar (strs (replicate 3 (py "reseñas_MuseoX")))))
                   (values (strs [py "POS"; py "POS"; py "NEG"])))) /\
    nrows (frame c) = nrows frame_museo /\
    treemap_df c = [].
Proof.
  apply (X11_no_topic_column frame_museo).
  - vm_compute. repeat constructor; intros H;
      repeat (apply elem_of_cons in H as [H|H]; [discriminate|]);
      by apply elem_of_nil in H.
  - vm_compute. reflexivity.
  - vm_compute. reflexivity.
  - vm_compute. intros H.
    repeat (apply elem_of_cons in H as [H|H]; [discriminate|]).
    by apply elem_of_nil in H.
Defined.

Lemma elem_of_names_rename_unchanged df k :
  k ∈ names df -> rename_map !! k = None -> k ∈ names (rename df).
Proof.
  intros Hk Hm. rewrite rename_eq. unfold rename_columns, names.
  cbn [columns]. rewrite <- list_fmap_compose.
  apply list_elem_of_fmap in Hk as ([k' s] & -> & Hin).
  apply list_elem_of_fmap. exists (k', s). split; [|done].
  cbn in *. by rewrite Hm.
Qed.

Lemma make_wordcloud_base64_Ok df ts t :
  getitem df (py "topic") = Ok t ->
  exists w, make_wordcloud_base64 df ts = Ok w.
Proof.
  intros Ht. unfold make_wordcloud_base64.
  destruct (blank (join [32%N] (dropna (values ts)))).
  - rewrite Ht. cbn [rbind]. by eexists.
  - cbn [rbind]. by eexists.
Qed.

(** X12. On a table whose column names stay distinct under renaming and
    that has the two mandatory columns and a column named
    "Review_Lematizada", no step of lines 106-201 fails up to the call of
    the image generator: the word-cloud step ends with [None] or with the
    text handed to the generator. *)
Theorem X12_pipeline_runs_through df0 :
  NoDup (names (rename df0)) ->
  py "lugar" ∈ names (rename df0) ->
  py "sent_label" ∈ names (rename df0) ->
  py "Review_Lematizada" ∈ names df0 ->
  exists c w, pipeline df0 = Ok (c, w).
Proof.
  intros Hnd Hl Hs Hrl.
  destruct (core_succeeds _ Hnd Hl Hs) as (c & Hc & Hnd' & Hsub & Ht).
  assert (Hrl' : py "Review_Lematizada" ∈ names (frame c)).
  { apply Hsub, elem_of_names_rename_unchanged; [done|]. by vm_compute. }
  destruct (getitem_NoDup_names _ _ Hnd' Hrl') as (s & Es).
  destruct (getitem_NoDup_names _ _ Hnd' Ht) as (t & Et).
  destruct (make_wordcloud_base64_Ok (frame c) (fillna_empty s) t Et)
    as (w & Hw).
  exists c, w. unfold pipeline, wordcloud_src.
  rewrite Hc. cbn [rbind]. rewrite Es. cbn [rbind]. by rewrite Hw.
Qed.

Lemma X12_pipeline_runs_witness :
  exists c w, pipeline frame_sentinel = Ok (c, w).
Proof.
  apply (X12_pipeline_runs_through frame_sentinel).
  - vm_compute. repeat constructor; intros H;
      repeat (apply elem_of_cons in H as [H|H]; [discriminate|]);
      by apply elem_of_nil in H.
  - vm_compute. apply list_elem_of_here.
  - vm_compute. apply list_elem_of_further, list_elem_of_here.
  - vm_compute. do 3 apply list_elem_of_further. apply list_elem_of_here.
Defined.

(** ** The resolver and the review-text column *)

Lemma text_cols_elem df cs tcs k s :
  text_cols df cs = Ok tcs -> (k, s) ∈ tcs ->
  getitem df k = Ok s /\ text_like s = true.
Proof.
  revert tcs. induction cs as [|c cs IH]; intros tcs; cbn [text_cols].
  - intros [= <-] ?%elem_of_nil. done.
  - destruct (getitem df c) as [s'|e] eqn:Ec; [|done]. cbn [rbind].
    destruct (text_cols df cs) as [rest|e] eqn:Er; [|done]. cbn [rbind].
    intros [= <-]. destruct (text_like s') eqn:Et; [|by apply (IH rest)].
    intros [[= -> ->]|Hin]%elem_of_cons; [done|]. by apply (IH rest).
Qed.

(** X13. Whatever the table, a column the resolver returns is a column of
    the table: either the first whose lower-cased name is a canonical
    candidate, or, when no name matches, a text-like column whose score is
    above zero. *)
Theorem X13_resolver_returns_a_column df c :
  detect_review_column df = Ok (Some c) ->
  c ∈ names df /\
  ((first_candidate df = Some c /\ lower c ∈ review_names) \/
   (first_candidate df = None /\
    exists s, getitem df c = Ok s /\ text_like s = true /\
              fgt (score df s) fzero = true)).
Proof.
  unfold detect_review_column, first_candidate.
  destruct (filter _ (names df)) as [|c' r] eqn:E.
  - destruct (text_cols df (names df)) as [tcs|e] eqn:Et; [|done].
    cbn [rbind head]. intros [= H].
    pose proof (best_fold_inv df tcs [] (None, fzero)) as Hinv.
    rewrite app_nil_l in Hinv. unfold best_inv in Hinv. rewrite H in Hinv.
    destruct Hinv as (s & pre & post & Htcs & _ & Hpos & _).
    { split; [done|]. by intros x ?%elem_of_nil. }
    assert (Hin : (c, s) ∈ tcs).
    { rewrite Htcs. apply elem_of_app. right. apply list_elem_of_here. }
    destruct (text_cols_elem _ _ _ _ _ Et Hin) as [Hg Htl].
    split; [by eapply getitem_Ok_names|]. right. split; [done|]. by exists s.
  - intros [= <-]. cbn [head].
    assert (Hin : c' ∈ filter (fun c => lower c ∈ review_names) (names df))
      by (rewrite E; apply list_elem_of_here).
    apply list_elem_of_filter in Hin as [Hl Hin]. split; [done|]. by left.
Qed.

Lemma X13_resolver_witness :
  py "b" ∈ names frame_resolver /\
  ((first_candidate frame_resolver = Some (py "b") /\
    lower (py "b") ∈ review_names) \/
   (first_candidate frame_resolver = None /\
    exists s, getitem frame_resolver (py "b") = Ok s /\
              text_like s = true /\
              fgt (score frame_resolver s) fzero = true)).
Proof.
  apply (X13_resolver_returns_a_column frame_resolver (py "b")).
  vm_compute. reflexivity.
Defined.

(** X14. After lines 141-145 the frame has a column "review_text"; a frame
    that already had one is left as it is, and in any case the row count
    and every column of another name are unchanged. *)
Theorem X14_review_text_column_added df df' :
  add_review_text df = Ok df' ->
  py "review_text" ∈ names df' /\
  (py "review_text" ∈ names df -> df' = df) /\
  nrows df' = nrows df /\
  forall k, k <> py "review_text" -> getitem df' k = getitem df k.
Proof.
  intros H. split; [|split; [|split]].
  - destruct (add_review_text_names _ _ H) as [Hn|[_ ->]].
    + revert H. unfold add_review_text.
      destruct (detect_review_column df) as [r|e]; [|done]. cbn [rbind].
      destruct (has_col (py "review_text") df) eqn:Hh.
      * intros [= <-]. by apply has_col_true.
      * intros H. rewrite Hn.
        assert (Hin : py "review_text" ∈ names df'); [|by rewrite Hn in Hin].
        destruct r as [c|]; [destruct (nonempty c)|].
        -- destruct (getitem df c) as [s|e]; [|done]. cbn [rbind] in H.
           injection H as <-. apply elem_of_names_setitem. by right.
        -- injection H as <-. apply elem_of_names_setitem. by right.
        -- injection H as <-. apply elem_of_names_setitem. by right.
    + apply elem_of_app. right. apply list_elem_of_here.
  - intros Hin. revert H. unfold add_review_text.
    destruct (detect_review_column df) as [r|e]; [|done]. cbn [rbind].
    apply has_col_true in Hin as ->. by intros [= <-].
  - by apply nrows_add_review_text.
  - intros k Hk. by apply add_review_text_getitem.
Qed.

Lemma X14_review_text_witness :
  exists df', add_review_text frame_labels = Ok df' /\
    py "review_text" ∈ names df' /\
    (py "review_text" ∈ names frame_labels -> df' = frame_labels) /\
    nrows df' = nrows frame_labels /\
    forall k, k <> py "review_text" -> getitem df' k = getitem frame_labels k.
Proof.
  eexists. split; [vm_compute; reflexivity|].
  apply (X14_review_text_column_added frame_labels).
  vm_compute. reflexivity.
Defined.

(** ** The topic summary *)

Lemma elem_of_group_keys l k : k ∈ group_keys l <-> Some k ∈ l.
Proof.
  rewrite group_keys_perm, elem_of_remove_dups. unfold dropna.
  rewrite list_elem_of_omap. split.
  - intros (x & Hx & Heq). cbn in Heq. by subst x.
  - intros H. by exists (Some k).
Qed.

Lemma NoDup_group_keys l : NoDup (group_keys l).
Proof. rewrite group_keys_perm. apply NoDup_remove_dups. Qed.

Lemma topic_sizes_keys tmp : (topic_sizes tmp).*1 = group_keys tmp.*2.
Proof.
  unfold topic_sizes. rewrite <- list_fmap_compose.
  rewrite <- (list_fmap_id (group_keys tmp.*2)) at 2.
  by apply list_fmap_ext.
Qed.

(** What the Topic Summarizer returns: one row per kept topic. *)
Lemma topic_summarizer_shape df foc rs :
  topic_summarizer df foc = Ok rs ->
  exists kept : list (pystr * nat),
    rs = (fun tc => map_topic_row tc.1 tc.2) <$> kept /\
    NoDup kept.*1 /\
    forall k n, (k, n) ∈ kept ->
      MIN_TOPIC_MENTIONS <= n /\
      Some k ∈ column_values df (py "topic") /\
      exists l t, getitem df (py "lugar") = Ok l /\
        getitem df (py "topic") = Ok t /\
        n = length (filter (fun row => row.2 = Some k /\
                              row.1 ∈ (fun a => Some (lugar a)) <$> foc)
                           (zip (values l) (values t))).
Proof.
  unfold topic_summarizer, column_values.
  destruct (getitem df (py "topic")) as [t|e] eqn:Et; [|done]. cbn [rbind].
  destruct (any_notna (values t)).
  - destruct (getitem df (py "lugar")) as [l|e] eqn:El; [|done]. cbn [rbind].
    intros [= <-]. eexists. split; [reflexivity|]. split.
    + eapply sublist_NoDup; [|apply fmap_sublist, sublist_filter].
      rewrite topic_sizes_keys. apply NoDup_group_keys.
    + intros k n [Hn Hin]%list_elem_of_filter. cbn [snd] in Hn.
      unfold topic_sizes in Hin.
      apply list_elem_of_fmap in Hin as (k' & [= <- ->] & Hk).
      split; [done|]. apply elem_of_group_keys in Hk.
      apply list_elem_of_fmap in Hk as ([x y] & Hy & Hxy). cbn in Hy. subst y.
      apply list_elem_of_filter in Hxy as [_ Hxy]. split.
      * by eapply elem_of_zip_r.
      * exists l, t. repeat split. by rewrite list_filter_filter.
  - intros [= <-]. exists []. split; [done|]. split; [constructor|].
    by intros k n ?%elem_of_nil.
Qed.

(** X15. Every row of the topic summary has at least MIN_TOPIC_MENTIONS
    mentions, and its mentions are the rows of focus locations that carry
    its topic. Its description is the dictionary entry of its identifier,
    empty when there is none, and its label is made of the identifier when
    the description is not empty and is Python's [None] otherwise. *)
Theorem X15_topic_summary_rows df foc rs r :
  topic_summarizer df foc = Ok rs -> r ∈ rs ->
  MIN_TOPIC_MENTIONS <= topic_mentions r /\
  description r = dict_get topic_descriptions (topic_id r) [] /\
  label r = (if nonempty (description r)
             then Some (py "Tópico " ++ topic_id r) else None) /\
  exists k l t, topic_id r = strip k /\
    getitem df (py "lugar") = Ok l /\ getitem df (py "topic") = Ok t /\
    topic_mentions r
    = length (filter (fun row => row.2 = Some k /\
                        row.1 ∈ (fun a => Some (lugar a)) <$> foc)
                     (zip (values l) (values t))).
Proof.
  intros (kept & -> & _ & Hk)%topic_summarizer_shape
         ([k n] & -> & Hin)%list_elem_of_fmap.
  destruct (Hk k n Hin) as (Hn & _ & l & t & Hl & Ht & Hcount).
  destruct (map_topic_row_spec k n) as (Hid & Hd & Hlab & Hm).
  cbn [fst snd]. rewrite Hm, Hid.
  split; [exact Hn|]. split; [exact Hd|]. split; [exact Hlab|].
  exists k, l, t. split; [reflexivity|]. split; [exact Hl|].
  split; [exact Ht|exact Hcount].
Qed.

Lemma X15_topic_summary_witness :
  let r := mkTopicRow (py "99") None [] 40 in
  MIN_TOPIC_MENTIONS <= topic_mentions r /\
  description r = dict_get topic_descriptions (topic_id r) [] /\
  label r = (if nonempty (description r)
             then Some (py "Tópico " ++ topic_id r) else None) /\
  exists k l t, topic_id r = strip k /\
    getitem (rename frame_topic99) (py "lugar") = Ok l /\
    getitem (rename frame_topic99) (py "topic") = Ok t /\
    topic_mentions r
    = length (filter (fun row => row.2 = Some k /\
                        row.1 ∈ (fun a => Some (lugar a))
                                <$> [mkAgg (py "A") 40 40 0 0 (Some (1 # 1))])
                     (zip (values l) (values t))).
Proof.
  apply (X15_topic_summary_rows (rename frame_topic99)
           [mkAgg (py "A") 40 40 0 0 (Some (1 # 1))]
           [mkTopicRow (py "99") None [] 40]).
  - vm_compute. reflexivity.
  - apply list_elem_of_here.
Defined.

Lemma normalizer_topic_values df0 df x :
  normalizer df0 = Ok df -> x ∈ column_values df (py "topic") ->
  x = None \/ exists y, x = trimmed_topic y /\ is_sentinel x = false.
Proof.
  intros (l & Hl & _ & H)%normalizer_Ok. unfold column_values.
  destruct H as [(t & Ht & ->)|(Hn & ->)].
  - assert (Ht1 : getitem (setitem (rename df0) (py "lugar") (clean_lugar l))
                    (py "topic") = Ok t) by by rewrite getitem_setitem_ne.
    rewrite getitem_filter_rows, (getitem_setitem_eq _ _ _ _ Ht1).
    cbn [rbind select values]. rewrite values_trimmed. intros Hx. right.
    pose proof (mask_select_elem _ _ _ Hx) as Hin.
    apply list_elem_of_fmap in Hin as (y & -> & _). exists y. split; [done|].
    unfold keep_mask in Hx.
    rewrite (list_fmap_compose trimmed_topic (fun c => negb (is_sentinel c)))
      in Hx.
    apply mask_select_kept in Hx. by apply negb_true_iff in Hx.
  - rewrite getitem_setitem_new
      by (rewrite elem_of_names_setitem; by intros [?|?]).
    cbn [values]. intros ?%elem_of_replicate_inv. by left.
Qed.

(** X16. In the script's topic summary no topic appears twice, and every
    identifier is a topic of the prepared table: a trimmed string that is
    none of the sentinels. *)
Theorem X16_topic_ids_distinct df0 c :
  core df0 = Ok c ->
  NoDup (topic_id <$> treemap_df c) /\
  forall r, r ∈ treemap_df c ->
    Some (topic_id r) ∈ column_values (frame c) (py "topic") /\
    trimmed (topic_id r) /\
    is_sentinel (Some (topic_id r)) = false.
Proof.
  intros Hc.
  destruct (core_Ok _ _ Hc) as (df & rows & Hn & Hr & _ & _ & Hts).
  destruct (topic_summarizer_shape _ _ _ Hts) as (kept & -> & Hnd & Hk).
  assert (Hkey : forall k n, (k, n) ∈ kept ->
            strip k = k /\ is_sentinel (Some k) = false /\
            Some k ∈ column_values (frame c) (py "topic")).
  { intros k n Hin. destruct (Hk k n Hin) as (_ & Hcol & _).
    assert (Hcol' : Some k ∈ column_values df (py "topic")).
    { unfold column_values in *.
      by rewrite (add_review_text_getitem _ _ _ Hr) in Hcol. }
    destruct (normalizer_topic_values _ _ _ Hn Hcol')
      as [|(y & Hy & Hs)]; [done|].
    split; [|done]. injection Hy as ->. apply strip_id, strip_trimmed. }
  assert (Hids : topic_id <$> ((fun tc => map_topic_row tc.1 tc.2) <$> kept)
                 = kept.*1).
  { rewrite <- list_fmap_compose. apply list_fmap_ext.
    intros i [k n] Hi. cbn.
    by apply (Hkey k n), (list_elem_of_lookup_2 _ i). }
  split; [by rewrite Hids|].
  intros r ([k n] & -> & Hin)%list_elem_of_fmap.
  destruct (Hkey k n Hin) as (Hs & Hsent & Hcol).
  cbn [fst snd map_topic_row topic_id]. rewrite Hs.
  split; [done|]. split; [|done]. rewrite <- Hs. apply strip_trimmed.
Qed.

Lemma X16_topic_ids_witness :
  exists c, core frame_topic99 = Ok c /\
    NoDup (topic_id <$> treemap_df c) /\
    forall r, r ∈ treemap_df c ->
      Some (topic_id r) ∈ column_values (frame c) (py "topic") /\
      trimmed (topic_id r) /\
      is_sentinel (Some (topic_id r)) = false.
Proof.
  assert (H : exists c, core frame_topic99 = Ok c)
    by (eexists; vm_compute; reflexivity).
  destruct H as [c Hc]. exists c. split; [exact Hc|].
  apply (X16_topic_ids_distinct frame_topic99 c Hc).
Defined.

(** ** The word-cloud text *)

Lemma lstrip_nil_iff s : lstrip s = [] <-> all_space s.
Proof.
  unfold all_space. induction s as [|c s IH]; cbn [lstrip].
  - split; [constructor|done].
  - rewrite Forall_cons. destruct (isspace c); [|split; [done|by intros [? _]]].
    rewrite IH. tauto.
Qed.

Lemma all_space_reverse s : all_space (reverse s) <-> all_space s.
Proof.
  unfold all_space. rewrite !Forall_forall.
  split; intros H x Hx; apply H; by apply elem_of_reverse.
Qed.

Lemma rstrip_nil_iff s : rstrip s = [] <-> all_space s.
Proof.
  unfold rstrip. rewrite <- all_space_reverse, <- lstrip_nil_iff. split.
  - intros H. apply (f_equal reverse) in H.
    by rewrite reverse_involutive in H.
  - by intros ->.
Qed.

Lemma strip_nil_iff s : strip s = [] <-> all_space s.
Proof.
  unfold strip. rewrite rstrip_nil_iff. split.
  - intros H. apply lstrip_nil_iff.
    destruct (lstrip s) as [|c r] eqn:E; [done|]. exfalso.
    assert (Hc : isspace c = false) by (apply (lstrip_head s); by rewrite E).
    apply Forall_cons in H as [? _]. congruence.
  - intros H%lstrip_nil_iff. rewrite H. constructor.
Qed.

Lemma blank_iff s : blank s = true <-> all_space s.
Proof.
  unfold blank. rewrite <- strip_nil_iff.
  destruct (strip s); cbn; split; done.
Qed.

Lemma all_space_join l :
  all_space (join [32%N] l) <-> Forall all_space l.
Proof.
  induction l as [|s [|s' l] IH].
  - split; constructor.
  - cbn [join]. rewrite Forall_singleton. done.
  - change (join [32%N] (s :: s' :: l))
      with (s ++ [32%N] ++ join [32%N] (s' :: l)).
    unfold all_space at 1. rewrite !Forall_app, Forall_singleton.
    fold (all_space s). fold (all_space (join [32%N] (s' :: l))).
    rewrite IH, (Forall_cons all_space s). split; [tauto|].
    intros [? ?]. repeat split; done.
Qed.

Lemma any_notna_false l : any_notna l = false -> dropna l = [].
Proof.
  unfold any_notna. intros H%bool_decide_eq_false.
  induction l as [|[s|] l IH]; [done| |].
  - exfalso. apply H. apply Exists_cons. left. by eexists.
  - cbn. apply IH. intros He. apply H. apply Exists_cons. by right.
Qed.

(** X17. [make_wordcloud_base64] returns [None] exactly when every review
    text and every topic is white space only (or there is none). When some
    review text is not, the image is made from the review texts alone,
    joined by spaces. *)
Theorem X17_wordcloud_none_iff_blank df ts w :
  make_wordcloud_base64 df ts = Ok w ->
  (w = None <->
   Forall all_space (dropna (values ts)) /\
   Forall all_space (dropna (column_values df (py "topic")))) /\
  (~ Forall all_space (dropna (values ts)) ->
   w = Some (join [32%N] (dropna (values ts)))).
Proof.
  unfold make_wordcloud_base64, column_values.
  destruct (blank (join [32%N] (dropna (values ts)))) eqn:Eb.
  - pose proof Eb as Hb. apply blank_iff, all_space_join in Hb.
    destruct (getitem df (py "topic")) as [t|e]; [|done]. cbn [rbind].
    destruct (any_notna (values t)) eqn:Ea.
    + destruct (blank (join [32%N] (dropna (values t)))) eqn:Et;
        intros [= <-]; split; try done.
      * split; [|done]. intros _. split; [done|].
        by apply all_space_join, blank_iff.
      * split; [done|]. intros [_ H%all_space_join%blank_iff]. congruence.
    + rewrite Eb. intros [= <-]. split; [|done]. split; [|done].
      intros _. split; [done|]. rewrite (any_notna_false _ Ea). constructor.
  - cbn [rbind]. rewrite Eb. intros [= <-].
    assert (Hn : ~ Forall all_space (dropna (values ts))).
    { intros H%all_space_join%blank_iff. congruence. }
    split; [|done]. split; [done|]. by intros [? _].
Qed.

Lemma X17_wordcloud_witness :
  let ts := strs [py "  "; py "bonito"] in
  (Some (py "   bonito") = None <->
   Forall all_space (dropna (values ts)) /\
   Forall all_space (dropna (column_values frame_labels (py "topic")))) /\
  (~ Forall all_space (dropna (values ts)) ->
   Some (py "   bonito") = Some (join [32%N] (dropna (values ts)))).
Proof.
  apply (X17_wordcloud_none_iff_blank frame_labels
           (strs [py "  "; py "bonito"])).
  vm_compute. reflexivity.
Defined.

(** ** The prepared frame *)

(** X18. The frame the Normalizer returns is well formed when the table is,
    has no more rows than the table, and has the columns "lugar",
    "sent_label" and "topic". *)
Theorem X18_normalizer_frame df0 df :
  wf_frame df0 -> normalizer df0 = Ok df ->
  wf_frame df /\ nrows df <= nrows df0 /\
  py "lugar" ∈ names df /\ py "sent_label" ∈ names df /\
  py "topic" ∈ names df.
Proof.
  intros Hwf Hn. split; [by eapply wf_frame_normalizer|].
  split; [by apply nrows_normalizer_le|].
  destruct (normalizer_Ok _ _ Hn) as (l & Hl & Hs & H).
  apply getitem_Ok_names in Hl.
  destruct H as [(t & Ht & ->)|(_ & ->)].
  - apply getitem_Ok_names in Ht.
    rewrite names_filter_rows, !elem_of_names_setitem. tauto.
  - rewrite !elem_of_names_setitem. tauto.
Qed.

Lemma X18_normalizer_frame_witness :
  exists df, normalizer frame_minus1 = Ok df /\
    wf_frame df /\ nrows df <= nrows frame_minus1 /\
    py "lugar" ∈ names df /\ py "sent_label" ∈ names df /\
    py "topic" ∈ names df.
Proof.
  assert (Hwf : wf_frame frame_minus1) by (repeat constructor).
  assert (H : exists df, normalizer frame_minus1 = Ok df)
    by (eexists; vm_compute; reflexivity).
  destruct H as [df Hdf]. exists df. split; [exact Hdf|].
  apply (X18_normalizer_frame frame_minus1 df Hwf Hdf).
Defined.
